(** * Steam discussion URL generator: a shallow embedding of
    [generate_discussion_urls.py] and the properties of its specification.

    Python [str] values are sequences of code points.  They are modelled by
    [string], one [ascii] per code point, so the model covers the code points
    below 256 (Latin-1); the character classes below are the ones CPython
    uses on that range.  Python [int] is [Z] and Python [float] is the
    binary64 [float].  Exceptions are explicit: a computation that may raise
    returns a [result].  The interpreter runs with its default settings; in
    particular an integer of more than 4300 decimal digits is neither read
    from a string nor written to one. *)

From Stdlib Require Import Strings.String Strings.Ascii Lists.List.
From Stdlib Require Import ZArith NArith Bool Lia.
From Stdlib Require Import Numbers.DecimalString Numbers.DecimalZ Numbers.DecimalPos.
From Stdlib Require Import Floats.
Import ListNotations.

Open Scope string_scope.
Open Scope Z_scope.

(** ** Exceptions

    The classes of exceptions that the program can meet.  What matters of
    an exception is which [except] clause catches it: [RequestException]
    stands for [requests.RequestException] and its subclasses,
    [UrlGenerationError] for the class the program defines, and each of the
    others for the exceptions of its class that are neither. *)

Inductive exn : Type :=
| ValueError
| TypeError
| OverflowError
| OSError
| UnicodeDecodeError
| RequestException
| UrlGenerationError.

Inductive result (A : Type) : Type :=
| Ok (a : A)
| Raise (e : exn).

Arguments Ok {A} a.
Arguments Raise {A} e.

Definition bind {A B : Type} (r : result A) (k : A -> result B) : result B :=
  match r with
  | Ok a => k a
  | Raise e => Raise e
  end.

Notation "x <- r ;; k" := (bind r (fun x => k))
  (at level 61, r at next level, right associativity).

(** A [for] loop over [xs] that updates a loop variable and stops at the
    first exception. *)
Fixpoint for_each {A S : Type} (xs : list A) (body : A -> S -> result S)
    (st : S) : result S :=
  match xs with
  | [] => Ok st
  | x :: xs' => st' <- body x st ;; for_each xs' body st'
  end.

(** ** Python strings *)

Module PyStr.

Definition code (c : ascii) : N := N_of_ascii c.

Definition in_range (lo hi : N) (c : ascii) : bool :=
  ((lo <=? code c) && (code c <=? hi))%N.

(** [str.isdecimal] on one character, also the class [\d] of [re]. *)
Definition is_decimal (c : ascii) : bool := in_range 48 57 c.

(** [str.isdigit] on one character: the decimal digits and the superscript
    digits U+00B2, U+00B3 and U+00B9. *)
Definition is_digit (c : ascii) : bool :=
  is_decimal c || (code c =? 178)%N || (code c =? 179)%N || (code c =? 185)%N.

(** [str.isspace] on one character, also the class [\s] of [re] and the
    characters removed by [str.strip()]. *)
Definition is_space (c : ascii) : bool :=
  in_range 9 13 c || in_range 28 32 c || (code c =? 133)%N || (code c =? 160)%N.

(** The line boundaries of [str.splitlines]. *)
Definition is_linebreak (c : ascii) : bool :=
  in_range 10 13 c || in_range 28 30 c || (code c =? 133)%N.

Definition lower (c : ascii) : ascii :=
  if in_range 65 90 c then ascii_of_N (code c + 32) else c.

Fixpoint all (p : ascii -> bool) (s : string) : bool :=
  match s with
  | EmptyString => true
  | String c s' => p c && all p s'
  end.

Definition nonempty (s : string) : bool :=
  match s with
  | EmptyString => false
  | String _ _ => true
  end.

(** [s.isdigit()]: at least one character, and all of them digits. *)
Definition isdigit (s : string) : bool := nonempty s && all is_digit s.

(** [s.isdecimal()]. *)
Definition isdecimal (s : string) : bool := nonempty s && all is_decimal s.

(** [s.isspace()]. *)
Definition isspace (s : string) : bool := nonempty s && all is_space s.

Fixpoint lstrip (s : string) : string :=
  match s with
  | EmptyString => EmptyString
  | String c s' => if is_space c then lstrip s' else s
  end.

Fixpoint rstrip (s : string) : string :=
  match s with
  | EmptyString => EmptyString
  | String c s' =>
      match rstrip s' with
      | EmptyString => if is_space c then EmptyString else String c EmptyString
      | r => String c r
      end
  end.

(** [s.strip()]. *)
Definition strip (s : string) : string := rstrip (lstrip s).

(** [s.startswith(p)]. *)
Definition startswith (p s : string) : bool := String.prefix p s.

Definition is_cr (c : ascii) : bool := (code c =? 13)%N.
Definition is_lf (c : ascii) : bool := (code c =? 10)%N.

(** [s.splitlines()]: a carriage return followed by a line feed is one
    boundary, and a final boundary opens no further line. *)
Fixpoint splitlines (s : string) : list string :=
  match s with
  | EmptyString => []
  | String c s' =>
      if is_linebreak c then
        EmptyString ::
          (if is_cr c then
             match s' with
             | String d s'' => if is_lf d then splitlines s'' else splitlines s'
             | EmptyString => splitlines s'
             end
           else splitlines s')
      else
        match splitlines s' with
        | [] => [String c EmptyString]
        | l :: ls => String c l :: ls
        end
  end.

(** [sep.join(parts)]. *)
Fixpoint join (sep : string) (parts : list string) : string :=
  match parts with
  | [] => EmptyString
  | [p] => p
  | p :: ps => p ++ sep ++ join sep ps
  end.

(** [needle in s]. *)
Fixpoint contains (needle s : string) : bool :=
  String.prefix needle s ||
  match s with
  | EmptyString => false
  | String _ s' => contains needle s'
  end.

(** The value of a string of decimal digits, most significant first. *)
Fixpoint digits_value (acc : Z) (s : string) : Z :=
  match s with
  | EmptyString => acc
  | String c s' => digits_value (10 * acc + (Z.of_N (code c) - 48)) s'
  end.

(** The digits of an integer literal with its underscores removed, or
    [None] when an underscore is not between two digits or a character is
    not a decimal digit. *)
Fixpoint literal_digits (after_digit : bool) (s : string) : option string :=
  match s with
  | EmptyString => if after_digit then Some EmptyString else None
  | String c s' =>
      if is_decimal c then option_map (String c) (literal_digits true s')
      else if (code c =? 95)%N && after_digit then literal_digits false s'
      else None
  end.

(** [sys.get_int_max_str_digits()], at its default. *)
Definition max_str_digits : nat := 4300.

(** [int(s)] in base ten: surrounding whitespace and one sign are accepted,
    everything else than decimal digits (and single underscores between
    them) raises [ValueError], and so do more than [max_str_digits] digits,
    leading zeros included. *)
Definition int (s : string) : result Z :=
  let body := strip s in
  let '(sign, digits) :=
    match body with
    | String c rest =>
        if (code c =? 45)%N then (-1, rest)
        else if (code c =? 43)%N then (1, rest)
        else (1, body)
    | EmptyString => (1, body)
    end in
  match literal_digits false digits with
  | Some ds =>
      if (max_str_digits <? String.length ds)%nat then Raise ValueError
      else Ok (sign * digits_value 0 ds)
  | None => Raise ValueError
  end.

(** [str(n)] and the ["{}"] formatting of an integer: [ValueError] when the
    integer has more than [max_str_digits] digits, that is when its
    absolute value is at least 10 to that power. *)
Definition of_int (n : Z) : result string :=
  if 10 ^ Z.of_nat max_str_digits <=? Z.abs n then Raise ValueError
  else Ok (NilZero.string_of_int (Z.to_int n)).

(** [template.format(name=value)]: every replacement field [{name}] of the
    template is replaced by [value].  [skip] counts the characters of a
    field that remain to be passed over. *)
Fixpoint format_from (skip : nat) (template name value : string) : string :=
  match template with
  | EmptyString => EmptyString
  | String c t' =>
      match skip with
      | S k => format_from k t' name value
      | O =>
          let field := "{" ++ name ++ "}" in
          if String.prefix field template
          then value ++ format_from (String.length field - 1) t' name value
          else String c (format_from 0 t' name value)
      end
  end.

Definition format (template name value : string) : string :=
  format_from 0 template name value.

End PyStr.

(** ** Regular expressions

    The fragment of Python's [re] that the program uses: literal characters,
    bracketed sets, the classes [\d] and [\s], the greedy [+] on a single
    character, concatenation and one capturing group.  Matching is by
    backtracking, in the order of [re]: a greedy [+] first tries to take one
    more character. *)

Module Re.

Inductive charset : Type :=
| Lit (c : ascii)
| Any_of (cs : string)
| Digit
| Space.

Inductive regex : Type :=
| Eps
| Chr (cs : charset)
| Plus (cs : charset)
| Seq (r1 r2 : regex)
| Group (r : regex).

(** The literal text [s] followed by [r]. *)
Fixpoint lits (s : string) (r : regex) : regex :=
  match s with
  | EmptyString => r
  | String c s' => Seq (Chr (Lit c)) (lits s' r)
  end.

Fixpoint mem (c : ascii) (cs : string) : bool :=
  match cs with
  | EmptyString => false
  | String d cs' => Ascii.eqb c d || mem c cs'
  end.

(** Whether [c] belongs to [cs]; [ignorecase] is the flag [re.IGNORECASE]. *)
Definition charset_mem (ignorecase : bool) (cs : charset) (c : ascii) : bool :=
  match cs with
  | Lit d =>
      if ignorecase then Ascii.eqb (PyStr.lower c) (PyStr.lower d)
      else Ascii.eqb c d
  | Any_of ds => mem c ds
  | Digit => PyStr.is_decimal c
  | Space => PyStr.is_space c
  end.

(** The part of [s] that was consumed when [rest] is what remains of it. *)
Definition consumed (s rest : string) : string :=
  String.substring 0 (String.length s - String.length rest) s.

Section Matcher.

Context {R : Type}.

(** [p+] at the start of [s], then [k] on the remaining input. *)
Fixpoint plus_loop (p : ascii -> bool) (s : string)
    (k : string -> option R) : option R :=
  match s with
  | EmptyString => None
  | String c s' =>
      if p c then
        match plus_loop p s' k with
        | Some r => Some r
        | None => k s'
        end
      else None
  end.

(** [r] at the start of [s], then [k] on the remaining input and on the
    text of group 1 ([g] before [r] is matched). *)
Fixpoint match_here (ignorecase : bool) (r : regex) (s : string)
    (g : option string) (k : string -> option string -> option R) : option R :=
  match r with
  | Eps => k s g
  | Chr cs =>
      match s with
      | EmptyString => None
      | String c s' => if charset_mem ignorecase cs c then k s' g else None
      end
  | Plus cs => plus_loop (charset_mem ignorecase cs) s (fun rest => k rest g)
  | Seq r1 r2 =>
      match_here ignorecase r1 s g
        (fun rest g' => match_here ignorecase r2 rest g' k)
  | Group r' =>
      match_here ignorecase r' s g
        (fun rest _ => k rest (Some (consumed s rest)))
  end.

End Matcher.

(** A match object, reduced to what [group(1)] returns. *)
Record match_object : Type := { group1 : option string }.

Definition match_at (ignorecase : bool) (r : regex) (s : string)
    : option match_object :=
  match_here ignorecase r s None (fun _ g => Some {| group1 := g |}).

(** [re.search(r, s)]: the match at the leftmost position that has one. *)
Fixpoint search (ignorecase : bool) (r : regex) (s : string)
    : option match_object :=
  match match_at ignorecase r s with
  | Some m => Some m
  | None =>
      match s with
      | EmptyString => None
      | String _ s' => search ignorecase r s'
      end
  end.

(** [m.group(1)], which is [None] in Python when the group took no part in
    the match; [int(None)] raises [TypeError]. *)
Definition int_group1 (m : match_object) : result Z :=
  match group1 m with
  | Some text => PyStr.int text
  | None => Raise TypeError
  end.

End Re.

(** ** Parsed HTML

    The tree that [BeautifulSoup(text, "html.parser")] builds.  [classes] is
    the value of the [class] attribute, which the parser keeps as the list
    of its words; [attrs] holds the other attributes, whose values are
    strings.  The [BeautifulSoup] object itself is a [Tag] (named
    [[document]]) whose children are the top-level nodes.  A string of the
    tree is a [NavigableString] or belongs to one of its subclasses: the
    parser builds a [Comment] for a comment, a [Script], a [Stylesheet] or a
    [TemplateString] for the text inside [<script>], [<style>] or
    [<template>], and so on. *)

Inductive string_class : Type :=
| CData
| Comment
| Declaration
| Doctype
| ProcessingInstruction
| RubyParenthesisString
| RubyTextString
| Script
| Stylesheet
| TemplateString.

#[warnings="-register-all"]
Inductive node : Type :=
| Tag (name : string) (classes : list string) (attrs : list (string * string))
      (children : list node)
| NavigableString (text : string)
| SpecialString (class : string_class) (text : string).

Module Html.

Fixpoint lower (s : string) : string :=
  match s with
  | EmptyString => EmptyString
  | String c s' => String (PyStr.lower c) (lower s')
  end.

(** [element.get(key)]: the dictionary lookup, [None] when absent. *)
Fixpoint lookup (key : string) (attrs : list (string * string)) : option string :=
  match attrs with
  | [] => None
  | (k, v) :: attrs' => if String.eqb k key then Some v else lookup key attrs'
  end.

Definition get (element : node) (key : string) : option string :=
  match element with
  | Tag _ _ attrs _ => lookup key attrs
  | _ => None
  end.

(** The proper descendants of a node, in document order. *)
Fixpoint descendants (n : node) : list node :=
  match n with
  | Tag _ _ _ children => flat_map (fun c => c :: descendants c) children
  | _ => []
  end.

(** The strings below a node, in document order, each with its class:
    [None] for a [NavigableString] itself. *)
Fixpoint all_strings (n : node) : list (option string_class * string) :=
  match n with
  | Tag _ _ _ children => flat_map all_strings children
  | NavigableString text => [(None, text)]
  | SpecialString class text => [(Some class, text)]
  end.

(** [tag.interesting_string_types], by the name of the tag: the text of the
    tags that hold strings of a class of their own is of that class only;
    for every other tag it is made of the [NavigableString] and [CData]
    strings. *)
Definition interesting (name : string) (class : option string_class) : bool :=
  if String.eqb name "rt"
  then match class with Some RubyTextString => true | _ => false end
  else if String.eqb name "rp"
  then match class with Some RubyParenthesisString => true | _ => false end
  else if String.eqb name "style"
  then match class with Some Stylesheet => true | _ => false end
  else if String.eqb name "script"
  then match class with Some Script => true | _ => false end
  else if String.eqb name "template"
  then match class with Some TemplateString => true | _ => false end
  else match class with None | Some CData => true | _ => false end.

(** The strings that [get_text] reads below a tag: those of an interesting
    class. *)
Definition strings (container : node) : list string :=
  match container with
  | Tag name _ _ _ =>
      map snd (filter (fun s => interesting name (fst s)) (all_strings container))
  | _ => []
  end.

(** [container.get_text(sep, strip=True)] for a tag: every string read is
    stripped, those left empty are dropped, and the others are joined by
    [sep]. *)
Definition get_text (sep : string) (container : node) : string :=
  PyStr.join sep
    (filter PyStr.nonempty (map PyStr.strip (strings container))).

End Html.

(** ** CSS selectors

    The selectors the program passes to [select]: a comma-separated list of
    compound selectors, each a conjunction of simple ones.  In an HTML
    document tag and attribute names compare without regard to case, class
    names and attribute values with it. *)

Module Css.

Inductive simple : Type :=
| Type_sel (tag : string)
| Class_sel (class : string)
| Attr_present (attr : string)
| Attr_contains (attr value : string).

Definition compound : Type := list simple.
Definition selector : Type := list compound.

Fixpoint attribute_by_name (attr : string) (attrs : list (string * string))
    : option string :=
  match attrs with
  | [] => None
  | (k, v) :: attrs' =>
      if String.eqb (Html.lower k) (Html.lower attr) then Some v
      else attribute_by_name attr attrs'
  end.

Definition match_simple (s : simple) (n : node) : bool :=
  match n with
  | NavigableString _ | SpecialString _ _ => false
  | Tag name classes attrs _ =>
      match s with
      | Type_sel tag => String.eqb (Html.lower name) (Html.lower tag)
      | Class_sel class => existsb (String.eqb class) classes
      | Attr_present attr =>
          match attribute_by_name attr attrs with
          | Some _ => true
          | None => false
          end
      | Attr_contains attr value =>
          match attribute_by_name attr attrs with
          | Some v => PyStr.nonempty value && PyStr.contains value v
          | None => false
          end
      end
  end.

Definition matches (sel : selector) (n : node) : bool :=
  existsb (fun c => forallb (fun s => match_simple s n) c) sel.

(** [n.select(sel)]: the descendants of [n] that match, in document order. *)
Definition select (sel : selector) (n : node) : list node :=
  filter (matches sel) (Html.descendants n).

End Css.

(** ** The program *)

Definition BASE_URL_TEMPLATE : string :=
  "https://steamcommunity.com/app/{app_id}/discussions/search/?" ++
  "gidforum=1638661595058265180&include_deleted=1&q=+".

Definition PAGE_QUERY_TEMPLATE : string := "&p={page}".

(** The loop of [read_app_ids] over the lines that remain, [app_ids] being
    the list built so far. *)
Fixpoint read_lines (lines : list string) (app_ids : list string) : list string :=
  match lines with
  | [] => app_ids
  | raw_line :: lines' =>
      let app_id := PyStr.strip raw_line in
      if negb (PyStr.nonempty app_id) || PyStr.startswith "#" app_id
      then read_lines lines' app_ids
      else if negb (PyStr.isdigit app_id)
      then read_lines lines' app_ids
      else read_lines lines' (app_ids ++ [app_id])
  end.

(** [read_app_ids], on the text that [ids_path.read_text] returns. *)
Definition read_app_ids (text : string) : list string :=
  read_lines (PyStr.splitlines text) [].

Definition build_base_url (app_id : string) : string :=
  PyStr.format BASE_URL_TEMPLATE "app_id" app_id.

Definition build_page_url (app_id : string) (page : Z) : result string :=
  page_text <- PyStr.of_int page ;;
  Ok (build_base_url app_id ++ PyStr.format PAGE_QUERY_TEMPLATE "page" page_text).

(** [".forum_pagination, .search_pagination, .forum_paging, .searchPaging"] *)
Definition pagination_selector : Css.selector :=
  [ [Css.Class_sel "forum_pagination"];
    [Css.Class_sel "search_pagination"];
    [Css.Class_sel "forum_paging"];
    [Css.Class_sel "searchPaging"] ].

(** ["[data-page]"] *)
Definition data_page_selector : Css.selector :=
  [ [Css.Attr_present "data-page"] ].

(** ['a[href*="&p="]'] *)
Definition page_link_selector : Css.selector :=
  [ [Css.Type_sel "a"; Css.Attr_contains "href" "&p="] ].

(** [r"[?&]p=(\d+)"] *)
Definition page_link_re : Re.regex :=
  Re.Seq (Re.Chr (Re.Any_of "?&"))
    (Re.lits "p=" (Re.Group (Re.Plus Re.Digit))).

(** [r"Page\s+\d+\s+of\s+(\d+)"] *)
Definition page_text_re : Re.regex :=
  Re.lits "Page"
    (Re.Seq (Re.Plus Re.Space)
      (Re.Seq (Re.Plus Re.Digit)
        (Re.Seq (Re.Plus Re.Space)
          (Re.lits "of"
            (Re.Seq (Re.Plus Re.Space) (Re.Group (Re.Plus Re.Digit))))))).

(** The body of the loop over the elements that carry [data-page]. *)
Definition scan_data_page (element : node) (max_page : Z) : result Z :=
  match Html.get element "data-page" with
  | Some page_value =>
      if PyStr.nonempty page_value && PyStr.isdigit page_value
      then n <- PyStr.int page_value ;; Ok (Z.max max_page n)
      else Ok max_page
  | None => Ok max_page
  end.

(** The body of the loop over the links whose [href] contains [&p=]. *)
Definition scan_link (link : node) (max_page : Z) : result Z :=
  let href := match Html.get link "href" with Some v => v | None => "" end in
  match Re.search false page_link_re href with
  | Some m => n <- Re.int_group1 m ;; Ok (Z.max max_page n)
  | None => Ok max_page
  end.

(** The text signal of one container. *)
Definition scan_text (container : node) (max_page : Z) : result Z :=
  let text := Html.get_text " " container in
  match Re.search true page_text_re text with
  | Some m => n <- Re.int_group1 m ;; Ok (Z.max max_page n)
  | None => Ok max_page
  end.

(** The body of the loop over the containers. *)
Definition scan_container (container : node) (max_page : Z) : result Z :=
  max_page <- for_each (Css.select data_page_selector container)
                scan_data_page max_page ;;
  max_page <- for_each (Css.select page_link_selector container)
                scan_link max_page ;;
  scan_text container max_page.

Definition containers_of (soup : node) : list node :=
  match Css.select pagination_selector soup with
  | [] => [soup]
  | pagination_containers => pagination_containers
  end.

Definition extract_max_page (soup : node) : result Z :=
  for_each (containers_of soup) scan_container 1.

(** [range(lo, hi)] *)
Definition range (lo hi : Z) : list Z :=
  map (fun i => lo + Z.of_nat i) (seq 0 (Z.to_nat (hi - lo))).

(** What [session.get] returns: the status code and the tree that
    [html.parser] builds from the body. *)
Record response : Type := {
  status_code : Z;
  parsed : node
}.

(** [response.raise_for_status()]: client and server error codes raise
    [HTTPError], a [RequestException]. *)
Definition raise_for_status (r : response) : result unit :=
  if (400 <=? status_code r) && (status_code r <? 600)
  then Raise RequestException
  else Ok tt.

(** [bool(delay)] for a float: every value but the two zeros, the negative
    numbers, the infinities and the NaNs included. *)
Definition truthy (delay : PrimFloat.float) : bool :=
  negb (PrimFloat.eqb delay PrimFloat.zero).

(** What a run of the generator does, in order: an error logged, a pair
    yielded, a call of [time.sleep] that returned. *)
Inductive event : Type :=
| Log_error (url : string)
| Yield (app_id url : string)
| Sleep (delay : PrimFloat.float).

(** A run consumed to its end: the events, and the exception that ended it
    if one did. *)
Definition trace : Type := (list event * option exn)%type.

Definition prepend (evs : list event) (t : trace) : trace :=
  ((evs ++ fst t)%list, snd t).

(** [t], and then [k] unless an exception ended [t]. *)
Definition followed_by (t k : trace) : trace :=
  match snd t with
  | None => prepend (fst t) k
  | Some _ => t
  end.

Definition yields (t : trace) : list (string * string) :=
  flat_map (fun e => match e with Yield a u => [(a, u)] | _ => [] end) (fst t).

Definition sleeps (t : trace) : nat :=
  List.length (filter (fun e => match e with Sleep _ => true | _ => false end)
                 (fst t)).

(** The events other than the suspensions. *)
Definition not_sleep (e : event) : bool :=
  match e with
  | Sleep _ => false
  | _ => true
  end.

(** The loop over the pages after the first one. *)
Fixpoint yield_pages (app_id : string) (pages : list Z) : trace :=
  match pages with
  | [] => ([], None)
  | page :: pages' =>
      match build_page_url app_id page with
      | Ok url => prepend [Yield app_id url] (yield_pages app_id pages')
      | Raise e => ([], Some e)
      end
  end.

(** What the file system does for the program: [Path.exists],
    [Path.read_text(encoding="utf-8")] and [Path.open("w", ...)], then on
    the file that was opened [writer.writerow], given the number of rows
    written before, and the closing of the file at the end of the [with]
    block, given the number of rows written.  Each of them may raise. *)
Record file_system : Type := {
  path_exists : string -> result bool;
  read_text : string -> result string;
  open_write : string -> result unit;
  write_row : nat -> list string -> result unit;
  close_file : nat -> result unit
}.

(** The loop of [write_csv] over the pairs that the generator yields, then
    its end [ending]: the rows written, and the exception that ended the
    loop if one did. *)
Fixpoint write_rows (fs : file_system) (written : nat)
    (rows : list (string * string)) (ending : option exn)
    : list (list string) * option exn :=
  match rows with
  | [] => ([], ending)
  | (app_id, url) :: rows' =>
      match write_row fs written [app_id; url] with
      | Ok _ =>
          let '(later, raised) := write_rows fs (S written) rows' ending in
          ([app_id; url] :: later, raised)
      | Raise e => ([], Some e)
      end
  end.

Section Network.

(** The session with the remote site: a request changes its state and
    either raises or returns a response.  [Timeout] is the type of the
    [timeout] argument, which the program only passes on.  [time_sleep] is
    what [time.sleep] does with a delay: it returns, or it raises, as it
    does for a negative delay, for a NaN and for a delay too large for the
    platform; the outcome is taken to depend on the delay only. *)
Variable Session : Type.
Variable Timeout : Type.
Variable session_get : Session -> string -> Timeout -> Session * result response.
Variable time_sleep : PrimFloat.float -> result unit.

Definition fetch_max_page (session : Session) (app_id : string)
    (timeout : Timeout) : Session * result Z :=
  let url := build_base_url app_id in
  let '(session', got) := session_get session url timeout in
  match (r <- got ;; _ <- raise_for_status r ;; Ok r) with
  | Raise RequestException => (session', Raise UrlGenerationError)
  | Raise e => (session', Raise e)
  | Ok r =>
      (session',
       max_page <- extract_max_page (parsed r) ;; Ok (Z.max max_page 1))
  end.

(** [if delay: time.sleep(delay)] *)
Definition pause (delay : PrimFloat.float) : trace :=
  if truthy delay then
    match time_sleep delay with
    | Ok _ => ([Sleep delay], None)
    | Raise e => ([], Some e)
    end
  else ([], None).

(** One iteration once [max_page] is known: the pair of the base URL, the
    pairs of the pages from 2, the pause. *)
Definition emit (app_id : string) (max_page : Z) (delay : PrimFloat.float)
    : trace :=
  prepend [Yield app_id (build_base_url app_id)]
    (followed_by (yield_pages app_id (range 2 (max_page + 1))) (pause delay)).

(** [generate_urls], consumed to its end. *)
Fixpoint generate_urls (app_ids : list string) (session : Session)
    (timeout : Timeout) (delay : PrimFloat.float) : trace :=
  match app_ids with
  | [] => ([], None)
  | app_id :: app_ids' =>
      let '(session', fetched) := fetch_max_page session app_id timeout in
      match fetched with
      | Ok max_page =>
          followed_by (emit app_id max_page delay)
            (generate_urls app_ids' session' timeout delay)
      | Raise UrlGenerationError =>
          followed_by
            (prepend [Log_error (build_base_url app_id)] (emit app_id 1 delay))
            (generate_urls app_ids' session' timeout delay)
      | Raise e => ([], Some e)
      end
  end.

(** [write_csv]: when the file can be opened it is created and receives
    its header row, then one row per pair the generator yields; an exception
    of the generator or of a write leaves the rows written so far and
    propagates, after the file is closed; an exception of the closing
    replaces it.  When the file cannot be opened nothing is written and the
    generator is not started.  The result is the rows of the file, if one
    was created, and what [write_csv] returns or raises. *)
Definition write_csv (fs : file_system) (rows : trace) (output_path : string)
    : option (list (list string)) * result unit :=
  match open_write fs output_path with
  | Raise e => (None, Raise e)
  | Ok _ =>
      let '(written, raised) :=
        match write_row fs 0 ["app_id"; "url"] with
        | Ok _ =>
            let '(later, raised) := write_rows fs 1 (yields rows) (snd rows) in
            (["app_id"; "url"] :: later, raised)
        | Raise e => ([], Some e)
        end in
      (Some written,
       match close_file fs (List.length written), raised with
       | Raise e, _ => Raise e
       | Ok _, Some e => Raise e
       | Ok _, None => Ok tt
       end)
  end.

(** The arguments [parse_args] returns that the core uses. *)
Record arguments : Type := {
  ids : string;
  output : string;
  timeout : Timeout;
  delay : PrimFloat.float
}.

(** [main] on a file system.  The result is what [main] returns or raises,
    and the output file when one was created. *)
Definition main (fs : file_system) (session : Session) (args : arguments)
    : result Z * option (list (list string)) :=
  match path_exists fs (ids args) with
  | Raise e => (Raise e, None)
  | Ok false => (Ok 1, None)
  | Ok true =>
      match read_text fs (ids args) with
      | Raise e => (Raise e, None)
      | Ok text =>
          let app_ids := read_app_ids text in
          match app_ids with
          | [] => (Ok 1, None)
          | _ =>
              let url_rows :=
                generate_urls app_ids session (timeout args) (delay args) in
              let '(file, written) := write_csv fs url_rows (output args) in
              (_ <- written ;; Ok 0, file)
          end
      end
  end.

(** The exit status of the process that runs [raise SystemExit(main())]: an
    uncaught exception ends the interpreter with status 1. *)
Definition exit_status (r : result Z) : Z :=
  match r with
  | Ok status => status
  | Raise _ => 1
  end.

End Network.

Arguments ids {Timeout} _.
Arguments output {Timeout} _.
Arguments timeout {Timeout} _.
Arguments delay {Timeout} _.

(** ** Definitions used by the statements *)

(** The two constant parts of [BASE_URL_TEMPLATE], around its field. *)
Definition URL_PREFIX : string := "https://steamcommunity.com/app/".

Definition URL_SUFFIX : string :=
  "/discussions/search/?gidforum=1638661595058265180&include_deleted=1&q=+".

(** The record of a page of an identifier: page 1 is the base URL, the
    later pages are what [build_page_url] returns. *)
Definition url_record (app_id : string) (page : Z) : result (string * string) :=
  if page =? 1 then Ok (app_id, build_base_url app_id)
  else url <- build_page_url app_id page ;; Ok (app_id, url).

(** The decimal writing of an integer, by the standard library. *)
Definition decimal (n : Z) : string := NilZero.string_of_int (Z.to_int n).

(** The integer that a string of decimal digits writes, by the standard
    library; 0 for any other string. *)
Definition value (digits : string) : Z :=
  match NilEmpty.uint_of_string digits with
  | Some number => Z.of_uint number
  | None => 0
  end.

(** A string of digits short enough for [int]. *)
Definition within_limit (digits : string) : bool :=
  (String.length digits <=? PyStr.max_str_digits)%nat.

(** The least integer that [str] does not write. *)
Definition UNWRITABLE : Z := 10 ^ Z.of_nat PyStr.max_str_digits.

Definition sum (ns : list Z) : Z := fold_right Z.add 0 ns.

(** The events of the records of an identifier: its pages from 1 to
    [max_page], in order. *)
Definition records_of (app_id : string) (max_page : Z) : list event :=
  flat_map (fun page =>
              match url_record app_id page with
              | Ok (app_id', url) => [Yield app_id' url]
              | Raise _ => []
              end)
    (range 1 (max_page + 1)).

(** The suspension that ends an iteration in which [time.sleep] returns. *)
Definition suspension (delay : PrimFloat.float) : list event :=
  if truthy delay then [Sleep delay] else [].

(** The events other than the logged errors. *)
Definition not_log (e : event) : bool :=
  match e with
  | Log_error _ => false
  | _ => true
  end.

(** Once the output file is open, every row is written and the file is
    closed without an exception. *)
Definition writes_return (fs : file_system) : Prop :=
  (forall written row, write_row fs written row = Ok tt)
  /\ (forall written, close_file fs written = Ok tt).

(** Whether what [session.get] did counts as a failed fetch: it raised a
    [RequestException], or the response has a status on which
    [raise_for_status] raises. *)
Definition fetch_fails (got : result response) : bool :=
  match got with
  | Raise RequestException => true
  | Raise _ => false
  | Ok r => (400 <=? status_code r) && (status_code r <? 600)
  end.

Section Runs.

Variable Session : Type.
Variable Timeout : Type.
Variable session_get : Session -> string -> Timeout -> Session * result response.

(** The max-page extracted for each identifier, in order, in a run in which
    every fetch succeeds; [None] when a request fails or an extraction
    raises. *)
Fixpoint fetched_max_pages (app_ids : list string) (session : Session)
    (timeout : Timeout) : option (list Z) :=
  match app_ids with
  | [] => Some []
  | app_id :: app_ids' =>
      let '(session', got) :=
        session_get session (build_base_url app_id) timeout in
      match got with
      | Ok r =>
          match raise_for_status r, extract_max_page (parsed r) with
          | Ok _, Ok n =>
              option_map (cons n) (fetched_max_pages app_ids' session' timeout)
          | _, _ => None
          end
      | Raise _ => None
      end
  end.

End Runs.

Section Progress.

Variable Session : Type.
Variable Timeout : Type.
Variable session_get : Session -> string -> Timeout -> Session * result response.
Variable time_sleep : PrimFloat.float -> result unit.

(** Whether the pause of an iteration ends without an exception: the delay
    is a zero, or [time.sleep] returns. *)
Definition pause_returns (delay : PrimFloat.float) : bool :=
  negb (truthy delay)
  || match time_sleep delay with
     | Ok _ => true
     | Raise _ => false
     end.

(** The max-page the generator works with for each identifier it gets to,
    in order: the fetched one, or 1 when the fetch fails.  The list stops
    before the identifier at which the fetch raises another exception, and
    after the identifier at which the pause raises. *)
Fixpoint used_max_pages (app_ids : list string) (session : Session)
    (timeout : Timeout) (delay : PrimFloat.float) : list Z :=
  match app_ids with
  | [] => []
  | app_id :: app_ids' =>
      let '(session', fetched) :=
        fetch_max_page Session Timeout session_get session app_id timeout in
      let later :=
        if pause_returns delay
        then used_max_pages app_ids' session' timeout delay
        else [] in
      match fetched with
      | Ok max_page => max_page :: later
      | Raise UrlGenerationError => 1 :: later
      | Raise _ => []
      end
  end.

(** The session once the generator is exhausted. *)
Fixpoint session_after (app_ids : list string) (session : Session)
    (timeout : Timeout) (delay : PrimFloat.float) : Session :=
  match app_ids with
  | [] => session
  | app_id :: app_ids' =>
      let '(session', fetched) :=
        fetch_max_page Session Timeout session_get session app_id timeout in
      match fetched with
      | Ok _ | Raise UrlGenerationError =>
          if pause_returns delay
          then session_after app_ids' session' timeout delay
          else session'
      | Raise _ => session'
      end
  end.

End Progress.

(** The two tests of [read_app_ids] on a stripped line. *)
Definition kept (app_id : string) : bool :=
  negb (negb (PyStr.nonempty app_id) || PyStr.startswith "#" app_id)
  && PyStr.isdigit app_id.

(** *** Occurrences of [Page <int> of <int>]

    The text signal as the specification words it, read from left to right
    without going back: the word [Page] in either case, whitespace, an
    integer, whitespace, the word [of] in either case, whitespace, and the
    integer that counts. *)

Module Occurrence.

(** [s] from its first character that is not in [p]. *)
Fixpoint skip (p : ascii -> bool) (s : string) : string :=
  match s with
  | EmptyString => EmptyString
  | String c s' => if p c then skip p s' else s
  end.

(** The longest prefix of [s] whose characters are in [p]. *)
Fixpoint take (p : ascii -> bool) (s : string) : string :=
  match s with
  | EmptyString => EmptyString
  | String c s' => if p c then String c (take p s') else EmptyString
  end.

Definition starts_with (p : ascii -> bool) (s : string) : bool :=
  match s with
  | EmptyString => false
  | String c _ => p c
  end.

Definition and_then {A B : Type} (o : option A) (f : A -> option B) : option B :=
  match o with
  | Some a => f a
  | None => None
  end.

(** What follows the letters of [w], in either case, at the start of [s]. *)
Fixpoint word (w s : string) : option string :=
  match w with
  | EmptyString => Some s
  | String d w' =>
      match s with
      | EmptyString => None
      | String c s' =>
          if Ascii.eqb (PyStr.lower c) (PyStr.lower d) then word w' s' else None
      end
  end.

(** What follows the characters of [p], one at least and as many as there
    are, at the start of [s]. *)
Definition one_or_more (p : ascii -> bool) (s : string) : option string :=
  if starts_with p s then Some (skip p s) else None.

(** The second integer of the occurrence that starts at the first character
    of [s]. *)
Definition at_start (s : string) : option string :=
  and_then (word "Page" s) (fun s1 =>
  and_then (one_or_more PyStr.is_space s1) (fun s2 =>
  and_then (one_or_more PyStr.is_decimal s2) (fun s3 =>
  and_then (one_or_more PyStr.is_space s3) (fun s4 =>
  and_then (word "of" s4) (fun s5 =>
  and_then (one_or_more PyStr.is_space s5) (fun s6 =>
  if starts_with PyStr.is_decimal s6
  then Some (take PyStr.is_decimal s6)
  else None)))))).

(** The second integer of the first occurrence in [s]. *)
Fixpoint first (s : string) : option string :=
  match at_start s with
  | Some count => Some count
  | None =>
      match s with
      | EmptyString => None
      | String _ s' => first s'
      end
  end.

(** No occurrence starts at a character of [before] in the text
    [before ++ tail]. *)
Fixpoint none_within (before tail : string) : bool :=
  match before with
  | EmptyString => true
  | String _ before' =>
      match at_start (before ++ tail) with
      | Some _ => false
      | None => none_within before' tail
      end
  end.

End Occurrence.

(** *** Occurrences of a page key

    The link signal as the specification words it: the integer that follows
    the query key [p=] preceded by [?] or [&]. *)

Module PageKey.

(** The integer of the key that starts at the first character of [s]. *)
Definition at_start (s : string) : option string :=
  match s with
  | String c (String k (String e s')) =>
      if Re.mem c "?&" && Ascii.eqb k "p" && Ascii.eqb e "="
         && Occurrence.starts_with PyStr.is_decimal s'
      then Some (Occurrence.take PyStr.is_decimal s')
      else None
  | _ => None
  end.

(** The integer of the first key in [s]. *)
Fixpoint first (s : string) : option string :=
  match at_start s with
  | Some page => Some page
  | None =>
      match s with
      | EmptyString => None
      | String _ s' => first s'
      end
  end.

End PageKey.

(** *** The signals of a page

    What the specification calls the three signal types, each as the list
    of the integers it contributes. *)

(** A [data-page] attribute whose value is a string of decimal digits. *)
Definition data_page_signal (element : node) : list Z :=
  match Html.get element "data-page" with
  | Some page_value =>
      if PyStr.isdecimal page_value then [value page_value] else []
  | None => []
  end.

(** The first page key of the [href] of a link. *)
Definition link_signal (link : node) : list Z :=
  match Html.get link "href" with
  | Some href =>
      match PageKey.first href with
      | Some page => [value page]
      | None => []
      end
  | None => []
  end.

(** The first [Page <int> of <int>] of the text of a container. *)
Definition text_signal (container : node) : list Z :=
  match Occurrence.first (Html.get_text " " container) with
  | Some count => [value count]
  | None => []
  end.

Definition signals_in (container : node) : list Z :=
  (flat_map data_page_signal (Css.select data_page_selector container)
   ++ flat_map link_signal (Css.select page_link_selector container)
   ++ text_signal container)%list.

Definition signals (soup : node) : list Z :=
  flat_map signals_in (containers_of soup).

(** The largest of [floor] and the integers of [ns]. *)
Definition maximum (floor : Z) (ns : list Z) : Z := fold_left Z.max ns floor.

(** An element whose [data-page] value, if it passes [str.isdigit], is a
    string of decimal digits that [int] reads. *)
Definition readable_element (element : node) : bool :=
  match Html.get element "data-page" with
  | Some page_value =>
      negb (PyStr.isdigit page_value)
      || (PyStr.isdecimal page_value && within_limit page_value)
  | None => true
  end.

(** A link whose first page key, if it has one, is short enough. *)
Definition readable_link (link : node) : bool :=
  match Html.get link "href" with
  | Some href =>
      match PageKey.first href with
      | Some page => within_limit page
      | None => true
      end
  | None => true
  end.

(** A container whose first [Page <int> of <int>], if it has one, has a
    count that is short enough. *)
Definition readable_text (container : node) : bool :=
  match Occurrence.first (Html.get_text " " container) with
  | Some count => within_limit count
  | None => true
  end.

Definition readable_container (container : node) : bool :=
  forallb readable_element (Css.select data_page_selector container)
  && forallb readable_link (Css.select page_link_selector container)
  && readable_text container.

(** Every signal of the scanned containers can be read. *)
Definition well_formed (soup : node) : bool :=
  forallb readable_container (containers_of soup).

(** *** Sample data *)

Definition LINE_FEED : string := String "010" EmptyString.

(** U+00B2, SUPERSCRIPT TWO. *)
Definition SUPERSCRIPT_TWO : string := String "178" EmptyString.

(** The [BeautifulSoup] object over the given top-level nodes. *)
Definition document (children : list node) : node :=
  Tag "[document]" [] [] children.

(** [outside_insertion xs soup soup']: [soup'] is [soup] with the nodes [xs]
    inserted, one after the other, among the children of a node none of
    whose ancestors, nor itself unless it is the root, is a pagination
    container. *)
Inductive outside_insertion (xs : list node) : node -> node -> Prop :=
| insert_here (name : string) (classes : list string)
    (attrs : list (string * string)) (before after : list node) :
    outside_insertion xs
      (Tag name classes attrs (before ++ after))
      (Tag name classes attrs (before ++ xs ++ after))
| insert_below (name : string) (classes : list string)
    (attrs : list (string * string)) (before after : list node)
    (child child' : node) :
    Css.matches pagination_selector child = false ->
    outside_insertion xs child child' ->
    outside_insertion xs
      (Tag name classes attrs (before ++ child :: after))
      (Tag name classes attrs (before ++ child' :: after)).

(** [<span data-page="3"></span>Page 1 of 7] *)
Definition page_mixed : node :=
  document [Tag "span" [] [("data-page", "3")] []; NavigableString "Page 1 of 7"].

(** A page whose only pagination markup is [<span data-page="²"></span>]. *)
Definition page_superscript : node :=
  document [Tag "span" [] [("data-page", SUPERSCRIPT_TWO)] []].

(** [<a href="/search/?q=+&p=5">5</a>] *)
Definition page_five_links : node :=
  document [Tag "a" [] [("href", "/search/?q=+&p=5")] [NavigableString "5"]].

(** A pagination container with [data-page="2"] inside. *)
Definition paging_container : node :=
  Tag "div" ["forum_paging"] []
    [Tag "span" [] [("data-page", "2")] [NavigableString "2"]].

(** An element with [data-page="9"], a link to page 8 and the text
    [Page 1 of 6]. *)
Definition outside_content : list node :=
  [Tag "span" [] [("data-page", "9")] [];
   Tag "a" [] [("href", "?q=+&p=8")] [NavigableString "8"];
   NavigableString "Page 1 of 6"].

(** The container, and that content outside of it. *)
Definition page_with_container : node :=
  document (paging_container :: outside_content).

(** The same container alone. *)
Definition page_only_container : node :=
  document [paging_container].

(** [<a href="..."></a>] *)
Definition page_link (href : string) : node :=
  Tag "a" [] [("href", href)] [].

(** A text with two page counts, the later one larger. *)
Definition page_two_counts : node :=
  document [NavigableString "Forum page 1 OF 3 (archive: Page 1 of 9)"].

(** The text of a file that lists [app_ids], one per line. *)
Fixpoint one_per_line (app_ids : list string) : string :=
  match app_ids with
  | [] => ""
  | app_id :: app_ids' => app_id ++ LINE_FEED ++ one_per_line app_ids'
  end.

(** The text of the identifier file of the specification's example. *)
Definition ids_example : string :=
  "123" ++ LINE_FEED ++ LINE_FEED ++ "# comment" ++ LINE_FEED ++ "abc"
  ++ LINE_FEED ++ "456" ++ LINE_FEED ++ "123" ++ LINE_FEED.

(** A session that answers its n-th request with the n-th entry of
    [answers]; its state is the number of requests made so far. *)
Definition canned_get (answers : list (result response))
    (session : nat) (url : string) (timeout : unit) : nat * result response :=
  (S session, nth session answers (Raise RequestException)).

Definition ok_page (soup : node) : result response :=
  Ok {| status_code := 200; parsed := soup |}.

Definition not_found : result response :=
  Ok {| status_code := 404; parsed := document [] |}.

(** A response with a status that is neither a success nor an error for
    [raise_for_status]. *)
Definition multiple_choices (soup : node) : result response :=
  Ok {| status_code := 300; parsed := soup |}.

(** A [time.sleep] with the same outcome for every delay. *)
Definition canned_sleep (outcome : result unit) (delay : PrimFloat.float)
    : result unit :=
  outcome.

(** A file system with one file to read, [ids.txt], in which every file can
    be written. *)
Definition only_ids_file (text : string) : file_system :=
  {| path_exists := fun path => Ok (String.eqb path "ids.txt");
     read_text := fun path =>
       if String.eqb path "ids.txt" then Ok text else Raise OSError;
     open_write := fun _ => Ok tt;
     write_row := fun _ _ => Ok tt;
     close_file := fun _ => Ok tt |}.

(** A file system without any file. *)
Definition no_file : file_system :=
  {| path_exists := fun _ => Ok false;
     read_text := fun _ => Raise OSError;
     open_write := fun _ => Ok tt;
     write_row := fun _ _ => Ok tt;
     close_file := fun _ => Ok tt |}.

Definition sample_arguments : arguments unit :=
  {| ids := "ids.txt"; output := "steam_discussion_urls.csv";
     timeout := tt; delay := PrimFloat.zero |}.

(** [<script>Page 1 of 9</script>Page 1 of 2<!-- Page 1 of 7 -->] *)
Definition page_with_script : node :=
  document
    [Tag "script" [] [] [SpecialString Script "Page 1 of 9"];
     NavigableString "Page 1 of 2";
     SpecialString Comment " Page 1 of 7 "].


(** Delays of two seconds and of minus one second. *)
Definition TWO_SECONDS : PrimFloat.float := 2%float.

Definition MINUS_ONE_SECOND : PrimFloat.float := (-1)%float.

(** * Properties *)

Arguments build_base_url : simpl never.
Arguments build_page_url : simpl never.
Arguments extract_max_page : simpl never.

(** ** Strings *)

Lemma append_length (s t : string) :
  String.length (s ++ t) = (String.length s + String.length t)%nat.
Proof.
  induction s as [|c s IH]; simpl; [reflexivity | now rewrite IH].
Qed.

Lemma append_nil_r (s : string) : s ++ "" = s.
Proof.
  induction s as [|c s IH]; simpl; [reflexivity | now rewrite IH].
Qed.

Lemma append_assoc (s t u : string) : (s ++ t) ++ u = s ++ t ++ u.
Proof.
  induction s as [|c s IH]; simpl; [reflexivity | now rewrite IH].
Qed.

Lemma append_neq_self (s t : string) : t <> "" -> s ++ t <> s.
Proof.
  intros Ht Heq.
  apply (f_equal String.length) in Heq.
  rewrite append_length in Heq.
  destruct t as [|c t]; [now apply Ht | simpl in Heq; lia].
Qed.

Lemma append_inj_l (s t u : string) : s ++ t = s ++ u -> t = u.
Proof.
  induction s as [|c s IH]; simpl; [auto |].
  intros [= H]. now apply IH.
Qed.

Lemma append_inj_r (s t u : string) : s ++ u = t ++ u -> s = t.
Proof.
  intros H.
  assert (Hlen : String.length s = String.length t).
  { apply (f_equal String.length) in H. rewrite !append_length in H. lia. }
  revert t H Hlen.
  induction s as [|c s IH]; intros [|d t] H Hlen; simpl in *;
    try discriminate; [reflexivity |].
  injection H as -> H. f_equal. apply IH; [exact H | lia].
Qed.

Lemma substring_prefix (a b : string) :
  String.substring 0 (String.length a) (a ++ b) = a.
Proof.
  induction a as [|c a IH]; simpl.
  - now destruct b.
  - now rewrite IH.
Qed.

(** ** Character classes *)

Ltac by_ascii_cases c :=
  destruct c as [[] [] [] [] [] [] [] []]; vm_compute;
  try reflexivity; try discriminate; intros; try reflexivity; try discriminate.

Lemma decimal_not_space (c : ascii) :
  PyStr.is_decimal c = true -> PyStr.is_space c = false.
Proof. by_ascii_cases c. Qed.

Lemma space_not_decimal (c : ascii) :
  PyStr.is_space c = true -> PyStr.is_decimal c = false.
Proof. by_ascii_cases c. Qed.

Lemma space_not_letter_o (c : ascii) :
  PyStr.is_space c = true -> Ascii.eqb (PyStr.lower c) (PyStr.lower "o") = false.
Proof. by_ascii_cases c. Qed.

Lemma decimal_not_sign (c : ascii) :
  PyStr.is_decimal c = true ->
  (PyStr.code c =? 45)%N = false /\ (PyStr.code c =? 43)%N = false.
Proof. by_ascii_cases c; split; reflexivity. Qed.

Lemma decimal_is_digit (c : ascii) :
  PyStr.is_decimal c = true -> PyStr.is_digit c = true.
Proof. unfold PyStr.is_digit. now intros ->. Qed.

Lemma digit_character (c : ascii) :
  PyStr.is_digit c = true ->
  PyStr.is_space c = false
  /\ (PyStr.code c =? 45)%N = false
  /\ (PyStr.code c =? 43)%N = false
  /\ (PyStr.is_decimal c = false -> (PyStr.code c =? 95)%N = false)
  /\ Re.mem c "?&" = false
  /\ Ascii.eqb "#" c = false
  /\ PyStr.is_linebreak c = false.
Proof. by_ascii_cases c; repeat split; reflexivity. Qed.

Lemma decimal_digit_range (c : ascii) :
  PyStr.is_decimal c = true -> 0 <= Z.of_N (PyStr.code c) - 48 <= 9.
Proof.
  unfold PyStr.is_decimal, PyStr.in_range. intros H.
  apply andb_true_iff in H as [Hlo Hhi].
  apply N.leb_le in Hlo, Hhi. lia.
Qed.

Lemma decimal_digit_known (c : ascii) (number : Decimal.uint) :
  PyStr.is_decimal c = true ->
  exists number', uint_of_char c (Some number) = Some number'.
Proof.
  destruct c as [[] [] [] [] [] [] [] []]; vm_compute;
    try discriminate; intros _; eexists; reflexivity.
Qed.

(** ** Runs of characters *)

Lemma take_skip (p : ascii -> bool) (s : string) :
  Occurrence.take p s ++ Occurrence.skip p s = s.
Proof.
  induction s as [|c s IH]; simpl; [reflexivity |].
  destruct (p c); simpl; [now rewrite IH | reflexivity].
Qed.

Lemma all_take (p : ascii -> bool) (s : string) :
  PyStr.all p (Occurrence.take p s) = true.
Proof.
  induction s as [|c s IH]; simpl; [reflexivity |].
  destruct (p c) eqn:Hc; simpl; [now rewrite Hc | reflexivity].
Qed.

Lemma nonempty_take (p : ascii -> bool) (s : string) :
  PyStr.nonempty (Occurrence.take p s) = Occurrence.starts_with p s.
Proof. destruct s as [|c s]; simpl; [reflexivity | now destruct (p c)]. Qed.

Lemma skip_run (p : ascii -> bool) (run rest : string) :
  PyStr.all p run = true ->
  Occurrence.starts_with p rest = false ->
  Occurrence.skip p (run ++ rest) = rest.
Proof.
  intros Hrun Hrest.
  induction run as [|c run IH]; simpl in *.
  - destruct rest as [|d rest]; simpl in *; [reflexivity | now rewrite Hrest].
  - apply andb_true_iff in Hrun as [-> Hrun]. now apply IH.
Qed.

Lemma take_run (p : ascii -> bool) (run rest : string) :
  PyStr.all p run = true ->
  Occurrence.starts_with p rest = false ->
  Occurrence.take p (run ++ rest) = run.
Proof.
  intros Hrun Hrest.
  induction run as [|c run IH]; simpl in *.
  - destruct rest as [|d rest]; simpl in *; [reflexivity | now rewrite Hrest].
  - apply andb_true_iff in Hrun as [-> Hrun]. now rewrite IH.
Qed.

Lemma take_all (p : ascii -> bool) (s : string) :
  PyStr.all p s = true -> Occurrence.take p s = s.
Proof.
  intros H. rewrite <- (append_nil_r s) at 1.
  now apply take_run.
Qed.

Lemma starts_with_append (p : ascii -> bool) (run rest : string) :
  PyStr.nonempty run = true ->
  Occurrence.starts_with p (run ++ rest) = Occurrence.starts_with p run.
Proof. destruct run; [discriminate | reflexivity]. Qed.

Lemma starts_with_all (p : ascii -> bool) (run : string) :
  PyStr.nonempty run = true -> PyStr.all p run = true ->
  Occurrence.starts_with p run = true.
Proof.
  destruct run as [|c run]; [discriminate |]. simpl.
  intros _ H. now apply andb_true_iff in H as [-> _].
Qed.

Lemma starts_with_disjoint (p q : ascii -> bool) (s : string) :
  (forall c, p c = true -> q c = false) ->
  Occurrence.starts_with p s = true -> Occurrence.starts_with q s = false.
Proof. intros H. destruct s as [|c s]; simpl; [discriminate | apply H]. Qed.

Lemma one_or_more_run (p : ascii -> bool) (run rest : string) :
  PyStr.nonempty run = true ->
  PyStr.all p run = true ->
  Occurrence.starts_with p rest = false ->
  Occurrence.one_or_more p (run ++ rest) = Some rest.
Proof.
  intros Hne Hrun Hrest. unfold Occurrence.one_or_more.
  rewrite starts_with_append, starts_with_all, skip_run; auto.
Qed.

Lemma word_lower (w u rest : string) :
  Html.lower u = Html.lower w -> Occurrence.word w (u ++ rest) = Some rest.
Proof.
  revert u.
  induction w as [|d w IH]; intros [|c u] H; simpl in *;
    try discriminate; [reflexivity |].
  injection H as Hc Hu.
  rewrite Hc, Ascii.eqb_refl. now apply IH.
Qed.

Lemma consumed_skip (p : ascii -> bool) (s : string) :
  Re.consumed s (Occurrence.skip p s) = Occurrence.take p s.
Proof.
  unfold Re.consumed.
  rewrite <- (take_skip p s) at 1 3.
  rewrite append_length, Nat.add_sub.
  apply substring_prefix.
Qed.

(** ** Conversions *)

Lemma all_impl (p q : ascii -> bool) (s : string) :
  (forall c, p c = true -> q c = true) ->
  PyStr.all p s = true -> PyStr.all q s = true.
Proof.
  intros H. induction s as [|c s IH]; simpl; [reflexivity |].
  intros Hs. apply andb_true_iff in Hs as [Hc Hs].
  now rewrite (H c Hc), IH.
Qed.

Lemma rstrip_no_space (s : string) :
  PyStr.all (fun c => negb (PyStr.is_space c)) s = true -> PyStr.rstrip s = s.
Proof.
  induction s as [|c s IH]; simpl; [reflexivity |].
  intros H. apply andb_true_iff in H as [Hc Hs].
  rewrite (IH Hs). apply negb_true_iff in Hc.
  destruct s; [now rewrite Hc | reflexivity].
Qed.

Lemma strip_class (p : ascii -> bool) (s : string) :
  (forall c, p c = true -> PyStr.is_space c = false) ->
  PyStr.all p s = true -> PyStr.strip s = s.
Proof.
  intros Hp H. unfold PyStr.strip.
  assert (Hl : PyStr.lstrip s = s).
  { destruct s as [|c s]; [reflexivity |]. simpl in *.
    apply andb_true_iff in H as [Hc _]. now rewrite (Hp c Hc). }
  rewrite Hl. apply rstrip_no_space.
  apply (all_impl p); [| exact H].
  intros c Hc. now rewrite (Hp c Hc).
Qed.

Lemma isdecimal_isdigit (s : string) :
  PyStr.isdecimal s = true -> PyStr.isdigit s = true.
Proof.
  unfold PyStr.isdecimal, PyStr.isdigit. intros H.
  apply andb_true_iff in H as [-> H]. simpl.
  now apply (all_impl PyStr.is_decimal); [apply decimal_is_digit |].
Qed.

Lemma literal_digits_decimal (s : string) :
  PyStr.all PyStr.is_decimal s = true ->
  PyStr.literal_digits true s = Some s.
Proof.
  induction s as [|c s IH]; simpl; [reflexivity |].
  intros H. apply andb_true_iff in H as [-> Hs].
  now rewrite (IH Hs).
Qed.

Lemma literal_digits_superscript (s : string) (after_digit : bool) :
  PyStr.all PyStr.is_digit s = true ->
  PyStr.all PyStr.is_decimal s = false ->
  PyStr.literal_digits after_digit s = None.
Proof.
  revert after_digit.
  induction s as [|c s IH]; intros after_digit Hdigit Hdecimal; simpl in *;
    [discriminate |].
  apply andb_true_iff in Hdigit as [Hc Hs].
  destruct (PyStr.is_decimal c) eqn:Hd; simpl in *.
  - now rewrite IH.
  - destruct (digit_character c Hc) as (_ & _ & _ & H95 & _).
    now rewrite (H95 Hd).
Qed.

Lemma literal_digits_all (s : string) (after_digit : bool) (digits : string) :
  PyStr.literal_digits after_digit s = Some digits ->
  PyStr.all PyStr.is_decimal digits = true.
Proof.
  revert after_digit digits.
  induction s as [|c s IH]; intros after_digit digits; simpl.
  - destruct after_digit; [now intros [= <-] | discriminate].
  - destruct (PyStr.is_decimal c) eqn:Hc.
    + destruct (PyStr.literal_digits true s) as [digits'|] eqn:Hs;
        [| discriminate].
      intros [= <-]. simpl. rewrite Hc. now apply (IH true).
    + destruct ((PyStr.code c =? 95)%N && after_digit); [| discriminate].
      apply IH.
Qed.

(** The value that [int] computes lies where the number of digits puts
    it. *)
Lemma digits_value_bound (s : string) (acc : Z) :
  PyStr.all PyStr.is_decimal s = true -> 0 <= acc ->
  acc * 10 ^ Z.of_nat (String.length s) <= PyStr.digits_value acc s
  /\ PyStr.digits_value acc s < (acc + 1) * 10 ^ Z.of_nat (String.length s).
Proof.
  revert acc.
  induction s as [|c s IH]; intros acc Hall Hacc.
  - simpl. lia.
  - cbn [PyStr.all] in Hall. apply andb_true_iff in Hall as [Hc Hs].
    pose proof (decimal_digit_range c Hc) as Hd.
    cbn [PyStr.digits_value String.length].
    destruct (IH (10 * acc + (Z.of_N (PyStr.code c) - 48)) Hs) as [Hlo Hhi];
      [lia |].
    rewrite Nat2Z.inj_succ, Z.pow_succ_r by lia.
    pose proof (Z.pow_pos_nonneg 10 (Z.of_nat (String.length s))) as Hpow.
    nia.
Qed.

Lemma string_of_uint_decimal (u : Decimal.uint) :
  PyStr.all PyStr.is_decimal (NilEmpty.string_of_uint u) = true.
Proof.
  induction u; [reflexivity | ..];
    cbn [NilEmpty.string_of_uint PyStr.all]; rewrite IHu; reflexivity.
Qed.

Lemma digits_value_acc (u : Decimal.uint) (acc : positive) :
  PyStr.digits_value (Z.pos acc) (NilEmpty.string_of_uint u)
  = Z.pos (Pos.of_uint_acc u acc).
Proof.
  revert acc.
  induction u; intros acc; [reflexivity | ..];
    cbn [NilEmpty.string_of_uint PyStr.digits_value Pos.of_uint_acc];
    rewrite <- IHu; f_equal;
    match goal with
    | |- context [Z.of_N (PyStr.code ?c)] =>
        let v := eval vm_compute in (Z.of_N (PyStr.code c) - 48) in
        change (Z.of_N (PyStr.code c) - 48) with v
    end; lia.
Qed.

Lemma digits_value_uint (u : Decimal.uint) :
  PyStr.digits_value 0 (NilEmpty.string_of_uint u) = Z.of_uint u.
Proof.
  unfold Z.of_uint.
  induction u; [reflexivity | exact IHu | ..];
    cbn [NilEmpty.string_of_uint PyStr.digits_value Pos.of_uint];
    match goal with
    | |- context [Z.of_N (PyStr.code ?c)] =>
        let v := eval vm_compute in (10 * 0 + (Z.of_N (PyStr.code c) - 48)) in
        change (10 * 0 + (Z.of_N (PyStr.code c) - 48)) with v
    end;
    rewrite digits_value_acc; reflexivity.
Qed.

Lemma uint_of_string_decimal (s : string) :
  PyStr.all PyStr.is_decimal s = true ->
  exists number, NilEmpty.uint_of_string s = Some number.
Proof.
  induction s as [|c s IH]; [now exists Decimal.Nil |].
  cbn [PyStr.all NilEmpty.uint_of_string]. intros H.
  apply andb_true_iff in H as [Hc Hs].
  destruct (IH Hs) as (number & ->).
  now apply decimal_digit_known.
Qed.

(** What [int] computes on decimal digits is the integer that they write. *)
Lemma digits_value_value (s : string) :
  PyStr.all PyStr.is_decimal s = true -> PyStr.digits_value 0 s = value s.
Proof.
  intros H. unfold value.
  destruct (uint_of_string_decimal s H) as (number & Hs). rewrite Hs.
  apply NilEmpty.sus in Hs. rewrite <- Hs. apply digits_value_uint.
Qed.

Lemma within_limit_ltb (s : string) :
  (PyStr.max_str_digits <? String.length s)%nat = negb (within_limit s).
Proof. apply Nat.ltb_antisym. Qed.

(** [int] on a string of decimal digits: its value, unless the string is
    too long. *)
Lemma int_decimal (s : string) :
  PyStr.isdecimal s = true ->
  PyStr.int s = if within_limit s then Ok (value s) else Raise ValueError.
Proof.
  unfold PyStr.isdecimal. intros H.
  apply andb_true_iff in H as [Hne Hall].
  unfold PyStr.int.
  rewrite (strip_class PyStr.is_decimal s) by (exact Hall || apply decimal_not_space).
  rewrite <- (digits_value_value s Hall).
  destruct s as [|c s]; [discriminate |].
  pose proof Hall as Hall'. simpl in Hall'.
  apply andb_true_iff in Hall' as [Hc Hs].
  destruct (decimal_not_sign c Hc) as [-> ->].
  cbn [PyStr.literal_digits]. rewrite Hc, (literal_digits_decimal s Hs).
  cbn [option_map]. rewrite within_limit_ltb.
  destruct (within_limit (String c s)); cbn [negb]; [| reflexivity].
  f_equal. destruct (PyStr.digits_value 0 (String c s)); reflexivity.
Qed.

(** [int] raises [ValueError] on a string that passes [str.isdigit] and is
    no string of decimal digits. *)
Lemma int_superscript (s : string) :
  PyStr.isdigit s = true -> PyStr.isdecimal s = false ->
  PyStr.int s = Raise ValueError.
Proof.
  unfold PyStr.isdigit, PyStr.isdecimal. intros Hdigit Hdecimal.
  apply andb_true_iff in Hdigit as [Hne Hall].
  rewrite Hne in Hdecimal. simpl in Hdecimal.
  unfold PyStr.int.
  rewrite (strip_class PyStr.is_digit s)
    by (exact Hall || (intros c Hc; apply (digit_character c Hc))).
  destruct s as [|c s]; [discriminate |].
  pose proof Hall as Hall'. simpl in Hall'.
  apply andb_true_iff in Hall' as [Hc _].
  destruct (digit_character c Hc) as (_ & -> & -> & _).
  now rewrite (literal_digits_superscript _ false Hall Hdecimal).
Qed.

Lemma unwritable_positive : 1 < UNWRITABLE.
Proof. unfold UNWRITABLE. apply Z.pow_gt_1; [lia | vm_compute; reflexivity]. Qed.

(** An integer that [int] returns can be written by [str]. *)
Lemma int_bound (s : string) (n : Z) :
  PyStr.int s = Ok n -> Z.abs n < UNWRITABLE.
Proof.
  unfold PyStr.int.
  set (body := PyStr.strip s).
  destruct (match body with
            | String c rest =>
                if (PyStr.code c =? 45)%N then (-1, rest)
                else if (PyStr.code c =? 43)%N then (1, rest)
                else (1, body)
            | EmptyString => (1, body)
            end) as [sign digits] eqn:Hsign.
  assert (Hone : sign = 1 \/ sign = -1).
  { destruct body as [|c rest]; [injection Hsign as <- _; now left |].
    destruct (PyStr.code c =? 45)%N; [injection Hsign as <- _; now right |].
    destruct (PyStr.code c =? 43)%N; injection Hsign as <- _; now left. }
  destruct (PyStr.literal_digits false digits) as [ds|] eqn:Hds; [| discriminate].
  rewrite within_limit_ltb.
  destruct (within_limit ds) eqn:Hlimit; cbn [negb]; [| discriminate].
  intros [= <-].
  apply literal_digits_all in Hds.
  destruct (digits_value_bound ds 0 Hds) as [Hlo Hhi]; [lia |].
  unfold within_limit in Hlimit. apply Nat.leb_le in Hlimit.
  assert (Hpow : 10 ^ Z.of_nat (String.length ds) <= UNWRITABLE).
  { unfold UNWRITABLE. apply Z.pow_le_mono_r; lia. }
  destruct Hone as [-> | ->]; lia.
Qed.

Lemma of_int_small (n : Z) :
  Z.abs n < UNWRITABLE -> PyStr.of_int n = Ok (decimal n).
Proof.
  intros H. unfold PyStr.of_int. fold UNWRITABLE.
  destruct (UNWRITABLE <=? Z.abs n) eqn:E; [| reflexivity].
  apply Z.leb_le in E. lia.
Qed.

Lemma of_int_large (n : Z) :
  UNWRITABLE <= Z.abs n -> PyStr.of_int n = Raise ValueError.
Proof.
  intros H. unfold PyStr.of_int. fold UNWRITABLE.
  destruct (UNWRITABLE <=? Z.abs n) eqn:E; [reflexivity |].
  apply Z.leb_gt in E. lia.
Qed.

Lemma to_int_proper (n : Z) :
  Z.to_int n <> Decimal.Pos Decimal.Nil /\ Z.to_int n <> Decimal.Neg Decimal.Nil.
Proof.
  destruct n as [|p|p]; simpl; split; try discriminate;
    intros [= H]; now apply (DecimalPos.Unsigned.to_uint_nonnil p).
Qed.

Lemma decimal_inj (p q : Z) : decimal p = decimal q -> p = q.
Proof.
  unfold decimal. intros H.
  apply DecimalZ.to_int_inj.
  apply (f_equal NilZero.int_of_string) in H.
  rewrite !NilZero.isi in H by apply to_int_proper.
  now injection H.
Qed.

(** The decimal writing of an integer that is not negative. *)
Lemma decimal_digits (n : Z) :
  0 <= n ->
  exists number, decimal n = NilEmpty.string_of_uint number
                 /\ number <> Decimal.Nil
                 /\ Z.of_uint number = n.
Proof.
  intros Hn. destruct n as [|p|p]; [| | lia].
  - exists (Decimal.D0 Decimal.Nil). repeat split. discriminate.
  - exists (Pos.to_uint p). unfold decimal. cbn [Z.to_int NilZero.string_of_int].
    pose proof (DecimalPos.Unsigned.to_uint_nonnil p) as Hnil.
    repeat split; [| exact Hnil |].
    + unfold NilZero.string_of_uint. now destruct (Pos.to_uint p).
    + unfold Z.of_uint. now rewrite DecimalPos.Unsigned.of_to.
Qed.

Lemma decimal_isdecimal (n : Z) : 0 <= n -> PyStr.isdecimal (decimal n) = true.
Proof.
  intros Hn. destruct (decimal_digits n Hn) as (u & -> & Hnil & _).
  unfold PyStr.isdecimal. rewrite string_of_uint_decimal, andb_true_r.
  now destruct u.
Qed.

Lemma value_decimal (n : Z) : 0 <= n -> value (decimal n) = n.
Proof.
  intros Hn. destruct (decimal_digits n Hn) as (u & -> & _ & <-).
  unfold value. now rewrite NilEmpty.usu.
Qed.

Lemma to_uint_head (p : positive) (digits : Decimal.uint) :
  Pos.to_uint p <> Decimal.D0 digits.
Proof.
  intros H.
  pose proof (DecimalPos.Unsigned.to_of (Pos.to_uint p)) as Hnorm.
  rewrite DecimalPos.Unsigned.of_to in Hnorm. cbn [N.to_uint] in Hnorm.
  rewrite H in Hnorm. unfold Decimal.unorm in Hnorm.
  destruct (Decimal.nzhead (Decimal.D0 digits)) as [| d | | | | | | | | |] eqn:Hhead;
    try discriminate Hnorm.
  - injection Hnorm as ->.
    now apply (DecimalPos.Unsigned.to_uint_nonzero p).
  - now apply DecimalFacts.nzhead_nonzero in Hhead.
Qed.

(** The decimal writing of an integer below the limit is short enough for
    [int]. *)
Lemma decimal_within_limit (n : Z) :
  0 <= n < UNWRITABLE -> within_limit (decimal n) = true.
Proof.
  intros [Hn Hlimit]. unfold within_limit. apply Nat.leb_le.
  destruct n as [|p|p]; [vm_compute; lia | | lia].
  assert (Hvalue : PyStr.digits_value 0 (decimal (Z.pos p)) = Z.pos p).
  { rewrite digits_value_value, value_decimal; [reflexivity | lia |].
    pose proof (decimal_isdecimal (Z.pos p)) as H. unfold PyStr.isdecimal in H.
    apply andb_true_iff in H; [apply H | lia]. }
  assert (Hall : PyStr.all PyStr.is_decimal (decimal (Z.pos p)) = true).
  { pose proof (decimal_isdecimal (Z.pos p)) as H. unfold PyStr.isdecimal in H.
    apply andb_true_iff in H; [apply H | lia]. }
  unfold decimal in *. cbn [Z.to_int NilZero.string_of_int] in *.
  pose proof (to_uint_head p) as Hhead.
  pose proof (DecimalPos.Unsigned.to_uint_nonnil p) as Hnil.
  unfold NilZero.string_of_uint in *.
  destruct (Pos.to_uint p) as [| d | d | d | d | d | d | d | d | d | d];
    [now elim Hnil | now elim (Hhead d) | ..];
    cbn [NilEmpty.string_of_uint PyStr.all PyStr.digits_value String.length]
      in *;
    apply andb_true_iff in Hall as [_ Hall];
    match type of Hvalue with
    | PyStr.digits_value ?acc _ = _ =>
        let v := eval vm_compute in acc in
        change acc with v in Hvalue;
        destruct (digits_value_bound _ v Hall) as [Hlo _]; [lia |]
    end;
    rewrite Hvalue in Hlo;
    assert (Hpow : 10 ^ Z.of_nat (String.length (NilEmpty.string_of_uint d))
                   < 10 ^ Z.of_nat PyStr.max_str_digits)
      by (fold UNWRITABLE;
          pose proof (Z.pow_pos_nonneg 10
                        (Z.of_nat (String.length (NilEmpty.string_of_uint d))));
          nia);
    apply Z.pow_lt_mono_r_iff in Hpow; lia.
Qed.

Opaque UNWRITABLE.

(** ** UrlBuilder *)

Lemma build_base_url_eq (app_id : string) :
  build_base_url app_id = URL_PREFIX ++ app_id ++ URL_SUFFIX.
Proof. reflexivity. Qed.

Lemma format_page (page_text : string) :
  PyStr.format PAGE_QUERY_TEMPLATE "page" page_text = "&p=" ++ page_text.
Proof.
  cbv [PyStr.format PAGE_QUERY_TEMPLATE]. simpl. now rewrite append_nil_r.
Qed.

Lemma build_page_url_eq (app_id : string) (page : Z) :
  build_page_url app_id page
  = (page_text <- PyStr.of_int page ;;
     Ok (build_base_url app_id ++ "&p=" ++ page_text)).
Proof.
  unfold build_page_url.
  destruct (PyStr.of_int page); cbn [bind]; [| reflexivity].
  now rewrite format_page.
Qed.

Lemma build_page_url_small (app_id : string) (page : Z) :
  Z.abs page < UNWRITABLE ->
  build_page_url app_id page
  = Ok (build_base_url app_id ++ "&p=" ++ decimal page).
Proof. intros H. now rewrite build_page_url_eq, of_int_small. Qed.

Ltac limit_cases n :=
  let E := fresh "E" in
  destruct (Z.le_gt_cases UNWRITABLE (Z.abs n)) as [E | E];
  [rewrite (proj2 (Z.leb_le _ _) E) | rewrite (proj2 (Z.leb_gt _ _) E)].

Lemma one_writable : Z.abs 1 < UNWRITABLE.
Proof. apply unwritable_positive. Qed.

(** C3, the counterexample: for the identifier [42], what [build_page_url]
    returns for page 1 is not the URL that [build_base_url] builds. *)
Lemma page_url_1_differs_at_42 :
  build_page_url "42" 1 <> Ok (build_base_url "42").
Proof. vm_compute. discriminate. Qed.

(** C3, as amended: for every identifier, [build_page_url] at page 1 returns
    the base URL followed by the fragment [&p=1], and so never the base URL
    itself. *)
Theorem page_url_1_appends_fragment (app_id : string) :
  build_page_url app_id 1 = Ok (build_base_url app_id ++ "&p=1")
  /\ build_page_url app_id 1 <> Ok (build_base_url app_id).
Proof.
  assert (H : build_page_url app_id 1 = Ok (build_base_url app_id ++ "&p=1"))
    by (rewrite build_page_url_small by apply one_writable; reflexivity).
  split; [exact H |].
  rewrite H. intros [= Heq]. revert Heq. apply append_neq_self. discriminate.
Qed.

(** The base URL holds the identifier as it is, between two constant parts;
    so two identifiers have the same base URL only when they are the same
    identifier. *)
Theorem build_base_url_injective (app_id app_id' : string) :
  build_base_url app_id = URL_PREFIX ++ app_id ++ URL_SUFFIX
  /\ (build_base_url app_id = build_base_url app_id' <-> app_id = app_id').
Proof.
  split; [apply build_base_url_eq |].
  split; [| now intros ->].
  rewrite !build_base_url_eq. intros H.
  apply append_inj_l in H. now apply append_inj_r in H.
Qed.

(** [build_page_url] on every page number: when the number has more than
    4300 digits it raises [ValueError]; otherwise, for page 1 and the
    numbers below it as for the others, it returns the base URL followed by
    [&p=] and the number in decimal, which is never the base URL; and it
    returns the same URL for two pages of an identifier only when they are
    the same page. *)
Theorem build_page_url_fragment (app_id : string) (page page' : Z) :
  build_page_url app_id page
  = (if 10 ^ 4300 <=? Z.abs page then Raise ValueError
     else Ok (build_base_url app_id ++ "&p=" ++ decimal page))
  /\ build_page_url app_id page <> Ok (build_base_url app_id)
  /\ (forall url, build_page_url app_id page = Ok url ->
                  build_page_url app_id page' = Ok url -> page = page').
Proof.
  assert (H : forall p, build_page_url app_id p
              = if UNWRITABLE <=? Z.abs p then Raise ValueError
                else Ok (build_base_url app_id ++ "&p=" ++ decimal p)).
  { intros p. limit_cases p.
    - now rewrite build_page_url_eq, of_int_large.
    - now apply build_page_url_small. }
  split; [apply H |]. split.
  - rewrite H. limit_cases page; [discriminate |].
    intros [= Heq]. revert Heq. apply append_neq_self. discriminate.
  - intros url. rewrite !H.
    limit_cases page; [intros Hraise; discriminate Hraise |].
    limit_cases page'; [intros _ Hraise; discriminate Hraise |].
    intros [= <-] [= Heq].
    apply append_inj_l in Heq. apply (append_inj_l "&p=") in Heq.
    symmetry. now apply decimal_inj.
Qed.
(** ** IdentifierReader *)

(** The loop of [read_app_ids] keeps, in order, the stripped lines that pass
    its two tests. *)
Lemma read_lines_filter (lines app_ids : list string) :
  read_lines lines app_ids
  = (app_ids ++ filter kept (map PyStr.strip lines))%list.
Proof.
  revert app_ids.
  induction lines as [|raw_line lines IH]; intros app_ids; simpl.
  - now rewrite app_nil_r.
  - unfold kept at 1.
    destruct (negb (PyStr.nonempty (PyStr.strip raw_line))
              || PyStr.startswith "#" (PyStr.strip raw_line)); simpl.
    + apply IH.
    + destruct (PyStr.isdigit (PyStr.strip raw_line)); simpl.
      * rewrite IH, <- app_assoc. reflexivity.
      * apply IH.
Qed.

Lemma read_app_ids_filter (text : string) :
  read_app_ids text = filter kept (map PyStr.strip (PyStr.splitlines text)).
Proof. unfold read_app_ids. now rewrite read_lines_filter. Qed.

Lemma read_app_ids_example :
  read_app_ids ids_example = ["123"; "456"; "123"].
Proof. vm_compute. reflexivity. Qed.

(** C7, at the failing input: a line that holds only the superscript digit
    U+00B2 is not made of decimal digits, and [read_app_ids] keeps it as an
    identifier. *)
Theorem read_app_ids_keeps_superscript :
  PyStr.isdecimal SUPERSCRIPT_TWO = false
  /\ read_app_ids (SUPERSCRIPT_TWO ++ LINE_FEED) = [SUPERSCRIPT_TWO].
Proof. split; vm_compute; reflexivity. Qed.


(** *** The identifiers read *)

Lemma kept_isdigit (app_id : string) : kept app_id = PyStr.isdigit app_id.
Proof.
  unfold kept.
  destruct (PyStr.isdigit app_id) eqn:H; [| apply andb_false_r].
  rewrite andb_true_r. unfold PyStr.isdigit in H.
  destruct app_id as [|c s]; [discriminate |].
  cbn [PyStr.nonempty PyStr.all andb] in H.
  apply andb_true_iff in H as [Hc _].
  unfold PyStr.startswith. cbn [String.prefix PyStr.nonempty negb orb].
  destruct (ascii_dec "#" c) as [<- | _]; [discriminate | reflexivity].
Qed.

(** The identifiers that [read_app_ids] returns are the lines that pass
    [str.isdigit] once stripped, each as many times as it occurs: the tests
    on empty lines and on comments keep nothing out that the test on digits
    would let in. *)
Theorem read_app_ids_members (text app_id : string) :
  read_app_ids text
  = filter PyStr.isdigit (map PyStr.strip (PyStr.splitlines text))
  /\ (In app_id (read_app_ids text)
      <-> PyStr.isdigit app_id = true
          /\ exists raw_line, In raw_line (PyStr.splitlines text)
                              /\ PyStr.strip raw_line = app_id).
Proof.
  assert (H : read_app_ids text
              = filter PyStr.isdigit (map PyStr.strip (PyStr.splitlines text))).
  { rewrite read_app_ids_filter. apply filter_ext. apply kept_isdigit. }
  split; [exact H |].
  rewrite H, filter_In, in_map_iff.
  split.
  - intros [(raw_line & Hstrip & Hin) Hdigit]. eauto.
  - intros [Hdigit (raw_line & Hin & Hstrip)]. eauto.
Qed.

Lemma splitlines_line (line rest : string) :
  PyStr.all (fun c => negb (PyStr.is_linebreak c)) line = true ->
  PyStr.splitlines (line ++ LINE_FEED ++ rest) = line :: PyStr.splitlines rest.
Proof.
  induction line as [|c line IH]; [reflexivity |].
  cbn [PyStr.all]. intros H. apply andb_true_iff in H as [Hc Hline].
  apply negb_true_iff in Hc.
  change (String c line ++ LINE_FEED ++ rest)
    with (String c (line ++ LINE_FEED ++ rest)).
  cbn [PyStr.splitlines]. now rewrite Hc, (IH Hline).
Qed.

(** A file that lists identifiers made of digits, one per line, is read
    back as that list, in its order and with its repetitions. *)
Theorem read_app_ids_one_per_line (app_ids : list string) :
  Forall (fun app_id => PyStr.isdigit app_id = true) app_ids ->
  read_app_ids (one_per_line app_ids) = app_ids.
Proof.
  intros H. rewrite read_app_ids_filter.
  induction H as [|app_id app_ids Hdigit _ IH]; [reflexivity |].
  cbn [one_per_line].
  pose proof Hdigit as Hall. unfold PyStr.isdigit in Hall.
  apply andb_true_iff in Hall as [_ Hall].
  rewrite splitlines_line.
  2: { apply (all_impl PyStr.is_digit); [| exact Hall].
       intros c Hc.
       destruct (digit_character c Hc) as (_ & _ & _ & _ & _ & _ & ->).
       reflexivity. }
  cbn [map filter].
  rewrite (strip_class PyStr.is_digit app_id)
    by (exact Hall || (intros c Hc; apply (digit_character c Hc))).
  now rewrite kept_isdigit, Hdigit, IH.
Qed.

Lemma read_app_ids_one_per_line_witness :
  read_app_ids (one_per_line ["730"; "10"; "730"]) = ["730"; "10"; "730"].
Proof.
  apply (read_app_ids_one_per_line ["730"; "10"; "730"]).
  repeat constructor.
Defined.

(** ** PageCountExtractor: evaluations *)

Lemma extract_max_page_no_signal :
  extract_max_page (document []) = Ok 1.
Proof. vm_compute. reflexivity. Qed.

Lemma extract_max_page_mixed :
  extract_max_page page_mixed = Ok 7.
Proof. vm_compute. reflexivity. Qed.

Lemma extract_max_page_five_links :
  extract_max_page page_five_links = Ok 5.
Proof. vm_compute. reflexivity. Qed.

(** C1, at the failing input: on a page whose markup holds
    [data-page="²"], [extract_max_page] returns no integer; it raises
    [ValueError]. *)
Theorem extract_max_page_raises :
  extract_max_page page_superscript = Raise ValueError.
Proof. vm_compute. reflexivity. Qed.

(** C10, at the failing input: the value [²] of a [data-page] attribute
    passes the test of the loop although it is not a string of decimal
    digits, and it is not ignored: its conversion raises [ValueError]. *)
Theorem scan_data_page_raises_on_superscript :
  PyStr.isdecimal SUPERSCRIPT_TWO = false
  /\ scan_data_page (Tag "span" [] [("data-page", SUPERSCRIPT_TWO)] []) 1
     = Raise ValueError.
Proof. split; vm_compute; reflexivity. Qed.

(** ** Loops and running maxima *)

Lemma for_each_invariant {A S : Type} (P : S -> Prop) (xs : list A)
    (body : A -> S -> result S) :
  (forall x st st', body x st = Ok st' -> P st -> P st') ->
  forall st st', for_each xs body st = Ok st' -> P st -> P st'.
Proof.
  intros Hbody.
  induction xs as [|x xs IH]; intros st st' Hrun Hst; simpl in Hrun.
  - now inversion Hrun; subst.
  - destruct (body x st) as [st1|e] eqn:Hx; simpl in Hrun; [|discriminate].
    eapply IH; eauto.
Qed.

Lemma scan_data_page_within (element : node) (m m' : Z) :
  scan_data_page element m = Ok m' ->
  m <= m' /\ (m < UNWRITABLE -> m' < UNWRITABLE).
Proof.
  unfold scan_data_page.
  destruct (Html.get element "data-page") as [v|]; [| intros [= <-]; lia].
  destruct (PyStr.nonempty v && PyStr.isdigit v); [| intros [= <-]; lia].
  destruct (PyStr.int v) as [n|] eqn:Hint; simpl; [| discriminate].
  intros [= <-]. apply int_bound in Hint. lia.
Qed.

Lemma int_group1_bound (m : Re.match_object) (n : Z) :
  Re.int_group1 m = Ok n -> Z.abs n < UNWRITABLE.
Proof.
  unfold Re.int_group1. destruct (Re.group1 m); [apply int_bound | discriminate].
Qed.

Lemma scan_link_within (link : node) (m m' : Z) :
  scan_link link m = Ok m' ->
  m <= m' /\ (m < UNWRITABLE -> m' < UNWRITABLE).
Proof.
  unfold scan_link.
  destruct (Re.search false page_link_re _) as [mo|]; [| intros [= <-]; lia].
  destruct (Re.int_group1 mo) as [n|] eqn:Hint; simpl; [| discriminate].
  intros [= <-]. apply int_group1_bound in Hint. lia.
Qed.

Lemma scan_text_within (container : node) (m m' : Z) :
  scan_text container m = Ok m' ->
  m <= m' /\ (m < UNWRITABLE -> m' < UNWRITABLE).
Proof.
  unfold scan_text.
  destruct (Re.search true page_text_re _) as [mo|]; [| intros [= <-]; lia].
  destruct (Re.int_group1 mo) as [n|] eqn:Hint; simpl; [| discriminate].
  intros [= <-]. apply int_group1_bound in Hint. lia.
Qed.

Lemma scan_container_within (container : node) (m m' : Z) :
  scan_container container m = Ok m' ->
  m <= m' /\ (m < UNWRITABLE -> m' < UNWRITABLE).
Proof.
  unfold scan_container. intros H.
  destruct (for_each (Css.select data_page_selector container) scan_data_page m)
    as [m1|] eqn:H1; simpl in H; [| discriminate].
  destruct (for_each (Css.select page_link_selector container) scan_link m1)
    as [m2|] eqn:H2; simpl in H; [| discriminate].
  apply scan_text_within in H.
  apply (for_each_invariant
           (fun x => m <= x /\ (m < UNWRITABLE -> x < UNWRITABLE))) in H1;
    [| intros x st st' Hb Hst; apply scan_data_page_within in Hb; lia | lia].
  apply (for_each_invariant
           (fun x => m <= x /\ (m < UNWRITABLE -> x < UNWRITABLE))) in H2;
    [| intros x st st' Hb Hst; apply scan_link_within in Hb; lia | lia].
  lia.
Qed.

(** The floor and the ceiling: whatever the page, a returned max-page is at
    least 1, and it is an integer that [str] writes. *)
Lemma extract_max_page_within (soup : node) (n : Z) :
  extract_max_page soup = Ok n -> 1 <= n < UNWRITABLE.
Proof.
  unfold extract_max_page. intros H.
  apply (for_each_invariant (fun x => 1 <= x < UNWRITABLE)) in H;
    [exact H | | pose proof unwritable_positive; lia].
  intros x st st' Hb Hst. apply scan_container_within in Hb. lia.
Qed.

Lemma extract_max_page_floor (soup : node) (n : Z) :
  extract_max_page soup = Ok n -> 1 <= n.
Proof. intros H. now apply extract_max_page_within in H. Qed.

(** ** The regular expressions *)

Section Matching.

Context {R : Type}.

Lemma plus_loop_cons (p : ascii -> bool) (c : ascii) (s : string)
    (k : string -> option R) :
  Re.plus_loop p (String c s) k
  = if p c then
      match Re.plus_loop p s k with
      | Some r => Some r
      | None => k s
      end
    else None.
Proof. reflexivity. Qed.

(** When giving a character back never helps, a greedy [+] takes as many
    characters as there are. *)
Lemma plus_loop_longest (p : ascii -> bool) (c : ascii) (s : string)
    (k : string -> option R) :
  p c = true ->
  (forall t, Occurrence.starts_with p t = true ->
             k (Occurrence.skip p t) = None -> k t = None) ->
  Re.plus_loop p (String c s) k = k (Occurrence.skip p s).
Proof.
  intros Hc Hk. revert c Hc.
  induction s as [|d s IH]; intros c Hc; rewrite plus_loop_cons, Hc.
  - reflexivity.
  - destruct (p d) eqn:Hd.
    + rewrite (IH d Hd). cbn [Occurrence.skip]. rewrite Hd.
      destruct (k (Occurrence.skip p s)) eqn:Hrest; [reflexivity |].
      apply Hk; [exact Hd |]. cbn [Occurrence.skip]. now rewrite Hd.
    + rewrite plus_loop_cons, Hd. cbn [Occurrence.skip]. now rewrite Hd.
Qed.

Lemma plus_loop_none (p : ascii -> bool) (s : string) (k : string -> option R) :
  Occurrence.starts_with p s = false -> Re.plus_loop p s k = None.
Proof.
  destruct s as [|c s]; [reflexivity |]. simpl. now intros ->.
Qed.

Lemma match_here_lits (w : string) (r : Re.regex) (s : string)
    (g : option string) (k : string -> option string -> option R) :
  Re.match_here true (Re.lits w r) s g k
  = Occurrence.and_then (Occurrence.word w s)
      (fun s' => Re.match_here true r s' g k).
Proof.
  revert s.
  induction w as [|d w IH]; intros s; [reflexivity |].
  cbn [Re.lits Re.match_here Occurrence.word Re.charset_mem].
  destruct s as [|c s]; [reflexivity |].
  destruct (Ascii.eqb (PyStr.lower c) (PyStr.lower d)); [apply IH | reflexivity].
Qed.

(** A [+] followed by an expression that cannot start with a character of
    its class. *)
Lemma match_here_plus (ignorecase : bool) (cs : Re.charset) (r : Re.regex)
    (s : string) (g : option string) (k : string -> option string -> option R) :
  (forall t, Occurrence.starts_with (Re.charset_mem ignorecase cs) t = true ->
             Re.match_here ignorecase r t g k = None) ->
  Re.match_here ignorecase (Re.Seq (Re.Plus cs) r) s g k
  = Occurrence.and_then
      (Occurrence.one_or_more (Re.charset_mem ignorecase cs) s)
      (fun s' => Re.match_here ignorecase r s' g k).
Proof.
  intros H. cbn [Re.match_here]. unfold Occurrence.one_or_more.
  destruct s as [|c s]; [reflexivity |]. cbn [Occurrence.starts_with].
  destruct (Re.charset_mem ignorecase cs c) eqn:Hc.
  - rewrite plus_loop_longest; [| exact Hc | intros t Ht _; now apply H].
    cbn [Occurrence.skip]. now rewrite Hc.
  - rewrite plus_loop_cons, Hc. reflexivity.
Qed.

Lemma reject_plus (ignorecase : bool) (cs : Re.charset) (r : Re.regex)
    (s : string) (g : option string) (k : string -> option string -> option R) :
  Occurrence.starts_with (Re.charset_mem ignorecase cs) s = false ->
  Re.match_here ignorecase (Re.Seq (Re.Plus cs) r) s g k = None.
Proof. intros H. cbn [Re.match_here]. now apply plus_loop_none. Qed.

Lemma reject_group (ignorecase : bool) (cs : Re.charset)
    (s : string) (g : option string) (k : string -> option string -> option R) :
  Occurrence.starts_with (Re.charset_mem ignorecase cs) s = false ->
  Re.match_here ignorecase (Re.Group (Re.Plus cs)) s g k = None.
Proof. intros H. cbn [Re.match_here]. now apply plus_loop_none. Qed.

(** A capturing [(p+)] at the end of the expression takes the longest run. *)
Lemma match_here_group (ignorecase : bool) (cs : Re.charset) (s : string)
    (g : option string) (k : option string -> R) :
  Re.match_here ignorecase (Re.Group (Re.Plus cs)) s g (fun _ g' => Some (k g'))
  = if Occurrence.starts_with (Re.charset_mem ignorecase cs) s
    then Some (k (Some (Occurrence.take (Re.charset_mem ignorecase cs) s)))
    else None.
Proof.
  cbn [Re.match_here].
  destruct (Occurrence.starts_with (Re.charset_mem ignorecase cs) s) eqn:Hs.
  - destruct s as [|c s]; [discriminate |]. cbn [Occurrence.starts_with] in Hs.
    rewrite plus_loop_longest; [| exact Hs | discriminate].
    do 2 f_equal. f_equal.
    rewrite <- (consumed_skip _ (String c s)).
    cbn [Occurrence.skip]. now rewrite Hs.
  - now apply plus_loop_none.
Qed.

End Matching.

(** The expression of the text signal, tried at one place, finds what the
    reading from left to right finds. *)
Lemma match_at_page_text (s : string) :
  Re.match_at true page_text_re s
  = option_map (fun count => {| Re.group1 := Some count |})
      (Occurrence.at_start s).
Proof.
  unfold Re.match_at, page_text_re, Occurrence.at_start.
  rewrite match_here_lits.
  destruct (Occurrence.word "Page" s) as [s1|]; [| reflexivity].
  cbn [Occurrence.and_then].
  rewrite match_here_plus.
  2: { intros t Ht. apply reject_plus.
       now apply (starts_with_disjoint PyStr.is_space), Ht;
         apply space_not_decimal. }
  change (Re.charset_mem true Re.Space) with PyStr.is_space.
  destruct (Occurrence.one_or_more PyStr.is_space s1) as [s2|]; [| reflexivity].
  cbn [Occurrence.and_then].
  rewrite match_here_plus.
  2: { intros t Ht. apply reject_plus.
       now apply (starts_with_disjoint PyStr.is_decimal), Ht;
         apply decimal_not_space. }
  change (Re.charset_mem true Re.Digit) with PyStr.is_decimal.
  destruct (Occurrence.one_or_more PyStr.is_decimal s2) as [s3|]; [| reflexivity].
  cbn [Occurrence.and_then].
  rewrite match_here_plus.
  2: { intros t Ht. rewrite match_here_lits.
       destruct t as [|c t]; [discriminate |].
       cbn [Occurrence.starts_with] in Ht.
       cbn [Occurrence.word].
       change (Re.charset_mem true Re.Space c) with (PyStr.is_space c) in Ht.
       now rewrite (space_not_letter_o c Ht). }
  change (Re.charset_mem true Re.Space) with PyStr.is_space.
  destruct (Occurrence.one_or_more PyStr.is_space s3) as [s4|]; [| reflexivity].
  cbn [Occurrence.and_then].
  rewrite match_here_lits.
  destruct (Occurrence.word "of" s4) as [s5|]; [| reflexivity].
  cbn [Occurrence.and_then].
  rewrite match_here_plus.
  2: { intros t Ht. apply reject_group.
       now apply (starts_with_disjoint PyStr.is_space), Ht;
         apply space_not_decimal. }
  change (Re.charset_mem true Re.Space) with PyStr.is_space.
  destruct (Occurrence.one_or_more PyStr.is_space s5) as [s6|]; [| reflexivity].
  cbn [Occurrence.and_then].
  rewrite (match_here_group true Re.Digit s6 None
             (fun g => {| Re.group1 := g |})).
  change (Re.charset_mem true Re.Digit) with PyStr.is_decimal.
  now destruct (Occurrence.starts_with PyStr.is_decimal s6).
Qed.

Lemma search_page_text (s : string) :
  Re.search true page_text_re s
  = option_map (fun count => {| Re.group1 := Some count |})
      (Occurrence.first s).
Proof.
  induction s as [|c s IH]; cbn [Re.search Occurrence.first];
    rewrite match_at_page_text;
    destruct (Occurrence.at_start _); try reflexivity.
  exact IH.
Qed.

Lemma at_start_decimal (s count : string) :
  Occurrence.at_start s = Some count -> PyStr.isdecimal count = true.
Proof.
  unfold Occurrence.at_start, Occurrence.and_then.
  repeat match goal with
         | |- context [match ?o with Some _ => _ | None => None end] =>
             destruct o; [| discriminate]
         end.
  destruct (Occurrence.starts_with PyStr.is_decimal _) eqn:Hs; [| discriminate].
  intros [= <-]. unfold PyStr.isdecimal.
  now rewrite nonempty_take, Hs, all_take.
Qed.

Lemma first_decimal (s count : string) :
  Occurrence.first s = Some count -> PyStr.isdecimal count = true.
Proof.
  induction s as [|c s IH]; cbn [Occurrence.first];
    destruct (Occurrence.at_start _) eqn:Hat; try discriminate;
    try (intros [= <-]; now apply at_start_decimal in Hat).
  exact IH.
Qed.

(** The text signal of a container: the second integer of the first
    occurrence in its text, when there is one.  [ValueError] is raised when
    that integer is too long for [int]. *)
Lemma scan_text_first (container : node) (max_page : Z) :
  scan_text container max_page
  = match Occurrence.first (Html.get_text " " container) with
    | Some count =>
        if within_limit count then Ok (Z.max max_page (value count))
        else Raise ValueError
    | None => Ok max_page
    end.
Proof.
  unfold scan_text. rewrite search_page_text.
  destruct (Occurrence.first _) as [count|] eqn:Hfirst; [| reflexivity].
  cbn [option_map]. unfold Re.int_group1. cbn [Re.group1].
  rewrite (int_decimal count (first_decimal _ _ Hfirst)).
  now destruct (within_limit count).
Qed.

Lemma first_after (before tail : string) :
  Occurrence.none_within before tail = true ->
  Occurrence.first (before ++ tail) = Occurrence.first tail.
Proof.
  induction before as [|c before IH]; [reflexivity |].
  cbn [Occurrence.none_within]. intros H.
  change (String c before ++ tail) with (String c (before ++ tail)) in *.
  cbn [Occurrence.first].
  destruct (Occurrence.at_start (String c (before ++ tail))); [discriminate |].
  now apply IH.
Qed.

Lemma first_at_start (s count : string) :
  Occurrence.at_start s = Some count -> Occurrence.first s = Some count.
Proof. destruct s; cbn [Occurrence.first]; now intros ->. Qed.

Lemma lower_of_not_space (w rest : string) (c : ascii) (w' : string) :
  Html.lower w = String c w' -> PyStr.is_space c = false ->
  PyStr.is_decimal c = false ->
  Occurrence.starts_with PyStr.is_space (w ++ rest) = false.
Proof.
  destruct w as [|d w]; [discriminate |]. simpl.
  intros [= <- _]. clear. revert d. intros d. by_ascii_cases d.
Qed.

(** An occurrence written out, followed by anything that does not go on
    with a decimal digit. *)
Lemma at_start_occurrence
    (page_word gap1 current gap2 of_word gap3 count after : string) :
  Html.lower page_word = "page" ->
  PyStr.isspace gap1 = true ->
  PyStr.isdecimal current = true ->
  PyStr.isspace gap2 = true ->
  Html.lower of_word = "of" ->
  PyStr.isspace gap3 = true ->
  PyStr.isdecimal count = true ->
  Occurrence.starts_with PyStr.is_decimal after = false ->
  Occurrence.at_start
    (page_word ++ gap1 ++ current ++ gap2 ++ of_word ++ gap3 ++ count ++ after)
  = Some count.
Proof.
  unfold PyStr.isspace, PyStr.isdecimal.
  intros Hpage H1 Ha H2 Hof H3 Hb Hafter.
  apply andb_true_iff in H1 as [N1 A1], Ha as [Na Aa], H2 as [N2 A2],
    H3 as [N3 A3], Hb as [Nb Ab].
  unfold Occurrence.at_start.
  rewrite (word_lower "Page" page_word) by (now rewrite Hpage).
  cbn [Occurrence.and_then].
  rewrite (one_or_more_run PyStr.is_space gap1); auto.
  2: { rewrite starts_with_append by exact Na.
       apply (starts_with_disjoint PyStr.is_decimal);
         [apply decimal_not_space | now apply starts_with_all]. }
  cbn [Occurrence.and_then].
  rewrite (one_or_more_run PyStr.is_decimal current); auto.
  2: { rewrite starts_with_append by exact N2.
       apply (starts_with_disjoint PyStr.is_space);
         [apply space_not_decimal | now apply starts_with_all]. }
  cbn [Occurrence.and_then].
  rewrite (one_or_more_run PyStr.is_space gap2); auto.
  2: { apply (lower_of_not_space of_word _ "o" "f"); auto. }
  cbn [Occurrence.and_then].
  rewrite (word_lower "of" of_word) by (now rewrite Hof).
  cbn [Occurrence.and_then].
  rewrite (one_or_more_run PyStr.is_space gap3); auto.
  2: { rewrite starts_with_append by exact Nb.
       apply (starts_with_disjoint PyStr.is_decimal);
         [apply decimal_not_space | now apply starts_with_all]. }
  cbn [Occurrence.and_then].
  rewrite starts_with_append, starts_with_all, take_run; auto.
Qed.

(** C9: when the text of a container holds an occurrence of
    [Page <int> of <int>], written out here piece by piece, and no occurrence
    starts before it, the text signal is the second integer of that
    occurrence, the number that its digits write, whatever follows it: a
    later occurrence in [after], with a larger integer or not, contributes
    nothing.  (An integer of more than 4300 digits is not read: [int]
    raises [ValueError].) *)
Theorem scan_text_first_occurrence (container : node) (max_page : Z)
    (before page_word gap1 current gap2 of_word gap3 count after : string)
    (number : Decimal.uint) :
  Html.get_text " " container
  = before ++ page_word ++ gap1 ++ current ++ gap2 ++ of_word ++ gap3
    ++ count ++ after ->
  Html.lower page_word = "page" ->
  PyStr.isspace gap1 = true ->
  PyStr.isdecimal current = true ->
  PyStr.isspace gap2 = true ->
  Html.lower of_word = "of" ->
  PyStr.isspace gap3 = true ->
  PyStr.isdecimal count = true ->
  NilEmpty.uint_of_string count = Some number ->
  Occurrence.starts_with PyStr.is_decimal after = false ->
  Occurrence.none_within before
    (page_word ++ gap1 ++ current ++ gap2 ++ of_word ++ gap3 ++ count ++ after)
  = true ->
  scan_text container max_page
  = if (String.length count <=? 4300)%nat
    then Ok (Z.max max_page (Z.of_uint number))
    else Raise ValueError.
Proof.
  intros Htext Hpage H1 Ha H2 Hof H3 Hb Hnumber Hafter Hbefore.
  rewrite scan_text_first, Htext, (first_after _ _ Hbefore).
  rewrite (first_at_start _ count) by (now apply at_start_occurrence).
  unfold value, within_limit, PyStr.max_str_digits. now rewrite Hnumber.
Qed.

(** C9, on a text whose first occurrence counts 3 pages and whose second
    one counts 9: the text signal is 3. *)
Lemma scan_text_first_occurrence_witness :
  scan_text page_two_counts 1 = Ok 3.
Proof.
  apply (scan_text_first_occurrence page_two_counts 1
           "Forum " "page" " " "1" " " "OF" " " "3" " (archive: Page 1 of 9)"
           (Decimal.D3 Decimal.Nil));
    vm_compute; reflexivity.
Defined.

(** The text that [get_text] reads holds neither the comments nor the
    content of [<script>]: of the three counts of this page only the one in
    its running text is seen. *)
Lemma get_text_running_text :
  Html.get_text " " page_with_script = "Page 1 of 2"
  /\ extract_max_page page_with_script = Ok 2.
Proof. split; vm_compute; reflexivity. Qed.

(** ** Scope of the scans *)

Lemma bind_ok {A : Type} (r : result A) : bind r Ok = r.
Proof. now destruct r. Qed.

Lemma matches_children (sel : Css.selector) (name : string)
    (classes : list string) (attrs : list (string * string))
    (children children' : list node) :
  Css.matches sel (Tag name classes attrs children)
  = Css.matches sel (Tag name classes attrs children').
Proof. reflexivity. Qed.

Lemma select_children (sel : Css.selector) (name : string)
    (classes : list string) (attrs : list (string * string))
    (children : list node) :
  Css.select sel (Tag name classes attrs children)
  = flat_map (fun child =>
                (if Css.matches sel child then [child] else [])
                ++ Css.select sel child)%list
      children.
Proof.
  unfold Css.select. cbn [Html.descendants].
  induction children as [|child children IH]; [reflexivity |].
  cbn [flat_map]. rewrite filter_app, IH. cbn [filter app].
  now destruct (Css.matches sel child).
Qed.

Lemma select_document (sel : Css.selector) (children : list node) :
  Css.select sel (document children)
  = flat_map (fun child =>
                (if Css.matches sel child then [child] else [])
                ++ Css.select sel child)%list
      children.
Proof. apply select_children. Qed.

Lemma outside_insertion_matches (sel : Css.selector) (xs : list node)
    (soup soup' : node) :
  outside_insertion xs soup soup' ->
  Css.matches sel soup' = Css.matches sel soup.
Proof. intros H. destruct H; apply matches_children. Qed.

(** Nodes that hold no pagination container, inserted outside of every
    container, leave the list of the containers as it was. *)
Lemma outside_insertion_select (xs : list node) (soup soup' : node) :
  Css.select pagination_selector (document xs) = [] ->
  outside_insertion xs soup soup' ->
  Css.select pagination_selector soup' = Css.select pagination_selector soup.
Proof.
  intros Hxs H. rewrite select_document in Hxs.
  induction H as [name classes attrs before after
                 | name classes attrs before after child child' Hchild H IH];
    rewrite !select_children, !flat_map_app.
  - now rewrite Hxs.
  - cbn [flat_map].
    now rewrite (outside_insertion_matches _ _ _ _ H), IH, Hchild.
Qed.

(** C6: when the page holds no pagination container, the three scans run
    over the whole page; when it holds some, the result is that of the scans
    of these containers, one after the other, and content inserted outside
    of every container, whatever [data-page] attributes, links and texts it
    holds, does not change it. *)
Theorem extract_max_page_scope (soup : node) :
  (Css.select pagination_selector soup = [] ->
   extract_max_page soup = scan_container soup 1)
  /\ (Css.select pagination_selector soup <> [] ->
      extract_max_page soup
      = for_each (Css.select pagination_selector soup) scan_container 1
      /\ forall xs soup',
           Css.select pagination_selector (document xs) = [] ->
           outside_insertion xs soup soup' ->
           extract_max_page soup' = extract_max_page soup).
Proof.
  assert (Hsome : forall page,
    Css.select pagination_selector page <> [] ->
    extract_max_page page
    = for_each (Css.select pagination_selector page) scan_container 1).
  { intros page H. unfold extract_max_page, containers_of.
    now destruct (Css.select pagination_selector page). }
  split.
  - intros H. unfold extract_max_page, containers_of. rewrite H.
    cbn [for_each]. apply bind_ok.
  - intros H. split; [now apply Hsome |].
    intros xs soup' Hxs Hins.
    pose proof (outside_insertion_select xs soup soup' Hxs Hins) as Hsame.
    rewrite (Hsome soup H), (Hsome soup') by (now rewrite Hsame).
    now rewrite Hsame.
Qed.

(** C6, on a page with one container: the element with [data-page="9"], the
    link to page 8 and the text [Page 1 of 6] that stand outside of it
    change nothing, and the result is that of the container, 2. *)
Lemma extract_max_page_scope_witness :
  extract_max_page page_with_container = extract_max_page page_only_container
  /\ extract_max_page page_only_container = Ok 2
  /\ extract_max_page (document [NavigableString "Page 1 of 6"])
     = scan_container (document [NavigableString "Page 1 of 6"]) 1.
Proof.
  destruct (extract_max_page_scope page_only_container) as [_ Hinside].
  destruct Hinside as [Hscan Hignored]; [vm_compute; discriminate |].
  split; [| split].
  - apply (Hignored outside_content); [vm_compute; reflexivity |].
    exact (insert_here outside_content "[document]" [] []
             [paging_container] []).
  - rewrite Hscan. vm_compute. reflexivity.
  - apply (extract_max_page_scope (document [NavigableString "Page 1 of 6"])).
    vm_compute. reflexivity.
Defined.

(** ** The signals of a page *)

Lemma maximum_cons (floor n : Z) (ns : list Z) :
  maximum floor (n :: ns) = maximum (Z.max floor n) ns.
Proof. reflexivity. Qed.

Lemma maximum_app (floor : Z) (ns ms : list Z) :
  maximum floor (ns ++ ms) = maximum (maximum floor ns) ms.
Proof. apply fold_left_app. Qed.

Lemma maximum_spec (floor : Z) (ns : list Z) :
  floor <= maximum floor ns
  /\ (forall n, In n ns -> n <= maximum floor ns)
  /\ (maximum floor ns = floor \/ In (maximum floor ns) ns).
Proof.
  revert floor.
  induction ns as [|m ns IH]; intros floor.
  - cbn. repeat split; [lia | contradiction | now left].
  - rewrite maximum_cons.
    destruct (IH (Z.max floor m)) as (Hfloor & Hall & Hin).
    repeat split.
    + lia.
    + intros n [<- | Hn]; [lia | now apply Hall].
    + destruct Hin as [Heq | Hin]; [| right; now right].
      rewrite Heq.
      destruct (Z.max_spec floor m) as [[_ ->] | [_ ->]];
        [right; now left | now left].
Qed.

(** A loop whose body either raises, on the elements that are not [ok], or
    raises the running maximum by the integers of its element. *)
Lemma for_each_guarded {A : Type} (ok : A -> bool) (contribution : A -> list Z)
    (e : exn) (body : A -> Z -> result Z) (xs : list A) (st : Z) :
  (forall x st', body x st'
                 = if ok x then Ok (maximum st' (contribution x)) else Raise e) ->
  for_each xs body st
  = if forallb ok xs then Ok (maximum st (flat_map contribution xs))
    else Raise e.
Proof.
  intros Hbody. revert st.
  induction xs as [|x xs IH]; intros st; [reflexivity |].
  cbn [for_each forallb flat_map]. rewrite Hbody.
  destruct (ok x); cbn [bind andb]; [| reflexivity].
  now rewrite IH, maximum_app.
Qed.

Lemma scan_data_page_eq (element : node) (max_page : Z) :
  scan_data_page element max_page
  = if readable_element element
    then Ok (maximum max_page (data_page_signal element))
    else Raise ValueError.
Proof.
  unfold scan_data_page, readable_element, data_page_signal.
  destruct (Html.get element "data-page") as [v|]; [| reflexivity].
  replace (PyStr.nonempty v && PyStr.isdigit v) with (PyStr.isdigit v)
    by (unfold PyStr.isdigit; now destruct (PyStr.nonempty v)).
  destruct (PyStr.isdigit v) eqn:Hdigit, (PyStr.isdecimal v) eqn:Hdecimal;
    cbn [negb andb orb].
  - rewrite int_decimal by exact Hdecimal. now destruct (within_limit v).
  - now rewrite int_superscript.
  - now rewrite isdecimal_isdigit in Hdigit.
  - reflexivity.
Qed.

Lemma match_at_page_link (s : string) :
  Re.match_at false page_link_re s
  = option_map (fun page => {| Re.group1 := Some page |}) (PageKey.at_start s).
Proof.
  unfold Re.match_at, page_link_re, PageKey.at_start.
  cbn [Re.lits Re.match_here Re.charset_mem].
  destruct s as [|c [|k [|e s]]];
    try reflexivity;
    destruct (Re.mem c "?&"); try reflexivity; cbn [andb];
    destruct (Ascii.eqb k "p"); try reflexivity; cbn [andb].
  destruct (Ascii.eqb e "="); [| reflexivity]. cbn [andb].
  pose proof (match_here_group false Re.Digit s None
                (fun g => {| Re.group1 := g |})) as H.
  cbn [Re.match_here] in H. rewrite H.
  change (Re.charset_mem false Re.Digit) with PyStr.is_decimal.
  now destruct (Occurrence.starts_with PyStr.is_decimal s).
Qed.

Lemma search_page_link (s : string) :
  Re.search false page_link_re s
  = option_map (fun page => {| Re.group1 := Some page |}) (PageKey.first s).
Proof.
  induction s as [|c s IH]; cbn [Re.search PageKey.first];
    rewrite match_at_page_link;
    destruct (PageKey.at_start _); try reflexivity.
  exact IH.
Qed.

Lemma page_key_at_start_decimal (s page : string) :
  PageKey.at_start s = Some page -> PyStr.isdecimal page = true.
Proof.
  unfold PageKey.at_start.
  destruct s as [|c [|k [|e s]]]; try discriminate.
  destruct (Re.mem c "?&" && Ascii.eqb k "p" && Ascii.eqb e "=");
    [| discriminate].
  cbn [andb].
  destruct (Occurrence.starts_with PyStr.is_decimal s) eqn:Hs; [| discriminate].
  intros [= <-]. unfold PyStr.isdecimal.
  now rewrite nonempty_take, Hs, all_take.
Qed.

Lemma page_key_first_decimal (s page : string) :
  PageKey.first s = Some page -> PyStr.isdecimal page = true.
Proof.
  induction s as [|c s IH]; cbn [PageKey.first];
    destruct (PageKey.at_start _) eqn:Hat; try discriminate;
    try (intros [= <-]; now apply page_key_at_start_decimal in Hat).
  exact IH.
Qed.

Lemma scan_link_eq (link : node) (max_page : Z) :
  scan_link link max_page
  = if readable_link link
    then Ok (maximum max_page (link_signal link))
    else Raise ValueError.
Proof.
  unfold scan_link, readable_link, link_signal. rewrite search_page_link.
  destruct (Html.get link "href") as [href|]; [| reflexivity].
  destruct (PageKey.first href) as [page|] eqn:Hfirst; [| reflexivity].
  cbn [option_map]. unfold Re.int_group1. cbn [Re.group1].
  rewrite (int_decimal page (page_key_first_decimal _ _ Hfirst)).
  now destruct (within_limit page).
Qed.

Lemma scan_text_eq (container : node) (max_page : Z) :
  scan_text container max_page
  = if readable_text container
    then Ok (maximum max_page (text_signal container))
    else Raise ValueError.
Proof.
  rewrite scan_text_first. unfold readable_text, text_signal.
  destruct (Occurrence.first _) as [count|]; [| reflexivity].
  now destruct (within_limit count).
Qed.

Lemma scan_container_eq (container : node) (max_page : Z) :
  scan_container container max_page
  = if readable_container container
    then Ok (maximum max_page (signals_in container))
    else Raise ValueError.
Proof.
  unfold scan_container, readable_container, signals_in.
  rewrite (for_each_guarded readable_element data_page_signal ValueError)
    by apply scan_data_page_eq.
  destruct (forallb readable_element _); [| reflexivity]. cbn [bind andb].
  rewrite (for_each_guarded readable_link link_signal ValueError)
    by apply scan_link_eq.
  destruct (forallb readable_link _); [| reflexivity]. cbn [bind andb].
  rewrite scan_text_eq.
  destruct (readable_text container); [| reflexivity].
  now rewrite !maximum_app.
Qed.

(** What [extract_max_page] does on every page. *)
Lemma extract_max_page_cases (soup : node) :
  extract_max_page soup
  = if well_formed soup then Ok (maximum 1 (signals soup))
    else Raise ValueError.
Proof.
  unfold extract_max_page, well_formed, signals.
  apply for_each_guarded. intros container st. apply scan_container_eq.
Qed.

(** On a page every signal of which can be read (no [data-page] value of a
    scanned container passes [str.isdigit] without being a string of
    decimal digits, and no integer of a signal has more than 4300 digits),
    [extract_max_page] returns the largest integer among the signals of the
    scanned containers, and 1 when there is none or none above 1. *)
Theorem extract_max_page_max (soup : node) :
  well_formed soup = true ->
  exists n,
    extract_max_page soup = Ok n
    /\ 1 <= n
    /\ (forall signal, In signal (signals soup) -> signal <= n)
    /\ (n = 1 \/ In n (signals soup)).
Proof.
  intros H. exists (maximum 1 (signals soup)).
  rewrite extract_max_page_cases, H.
  split; [reflexivity | apply maximum_spec].
Qed.

Lemma extract_max_page_max_witness :
  exists n,
    extract_max_page page_with_container = Ok n
    /\ 1 <= n
    /\ (forall signal, In signal (signals page_with_container) -> signal <= n)
    /\ (n = 1 \/ In n (signals page_with_container)).
Proof.
  apply (extract_max_page_max page_with_container). vm_compute. reflexivity.
Defined.

(** [extract_max_page] raises exactly on the pages that hold, in a scanned
    container, a signal that cannot be read: a [data-page] value that passes
    [str.isdigit] without being a string of decimal digits, or an integer of
    more than 4300 digits in a [data-page] value, in the first page key of a
    selected link or as the count of the first [Page <int> of <int>] of the
    text.  What it raises is [ValueError], and it raises whatever the other
    signals of the page are. *)
Theorem extract_max_page_value_error (soup : node) (e : exn) :
  extract_max_page soup = Raise e <-> well_formed soup = false /\ e = ValueError.
Proof.
  rewrite extract_max_page_cases.
  destruct (well_formed soup); split.
  - discriminate.
  - now intros [H _].
  - now intros [= <-].
  - now intros [_ ->].
Qed.

(** A [data-page] value that is a string of decimal digits raises the
    running maximum to the number it writes, unless it has more than 4300
    digits: then [int] raises [ValueError]. *)
Theorem scan_data_page_decimal (element : node) (page_value : string)
    (number : Decimal.uint) (max_page : Z) :
  Html.get element "data-page" = Some page_value ->
  PyStr.isdecimal page_value = true ->
  NilEmpty.uint_of_string page_value = Some number ->
  scan_data_page element max_page
  = if (String.length page_value <=? 4300)%nat
    then Ok (Z.max max_page (Z.of_uint number))
    else Raise ValueError.
Proof.
  intros Hget Hdecimal Hnumber.
  rewrite scan_data_page_eq. unfold readable_element, data_page_signal.
  rewrite Hget, Hdecimal, (isdecimal_isdigit _ Hdecimal).
  unfold value, within_limit, PyStr.max_str_digits. rewrite Hnumber.
  cbn [negb orb andb].
  now destruct (String.length page_value <=? 4300)%nat.
Qed.

Lemma scan_data_page_decimal_witness :
  scan_data_page (Tag "span" [] [("data-page", "12")] []) 3 = Ok 12.
Proof.
  apply (scan_data_page_decimal (Tag "span" [] [("data-page", "12")] []) "12"
           (Decimal.D1 (Decimal.D2 Decimal.Nil)) 3);
    reflexivity.
Defined.

(** A [data-page] value that is empty or holds a character that is not a
    digit for [str.isdigit] (a sign, a blank, a letter) is passed over: the
    running maximum is unchanged and nothing is raised. *)
Theorem scan_data_page_ignored (element : node) (page_value : string)
    (max_page : Z) :
  Html.get element "data-page" = Some page_value ->
  page_value = ""
  \/ (exists c, In c (list_ascii_of_string page_value)
                /\ PyStr.is_digit c = false) ->
  scan_data_page element max_page = Ok max_page.
Proof.
  intros Hget Hvalue.
  assert (Hdigit : PyStr.isdigit page_value = false).
  { destruct Hvalue as [-> | (c & Hin & Hc)]; [reflexivity |].
    unfold PyStr.isdigit. apply andb_false_iff. right.
    clear Hget.
    induction page_value as [|d s IH]; [contradiction |].
    cbn [PyStr.all]. destruct Hin as [-> | Hin].
    - now rewrite Hc.
    - rewrite (IH Hin). apply andb_false_r. }
  unfold scan_data_page. rewrite Hget, Hdigit. now rewrite andb_false_r.
Qed.

Lemma scan_data_page_ignored_witness :
  scan_data_page (Tag "span" [] [("data-page", "-5")] []) 3 = Ok 3.
Proof.
  apply (scan_data_page_ignored (Tag "span" [] [("data-page", "-5")] []) "-5" 3);
    [reflexivity |].
  right. exists "-"%char. split; [now left | reflexivity].
Defined.

(** The value [0] is read, and changes no maximum that is at least 1. *)
Lemma scan_data_page_zero (element : node) (max_page : Z) :
  Html.get element "data-page" = Some "0" -> 1 <= max_page ->
  scan_data_page element max_page = Ok max_page.
Proof.
  intros Hget Hfloor. rewrite scan_data_page_eq.
  unfold readable_element, data_page_signal. rewrite Hget.
  cbn. f_equal. lia.
Qed.

(** The link signal: what counts in the [href] of a link is its first page
    key only.  [scan_link] raises nothing unless the integer of that key has
    more than 4300 digits. *)
Theorem scan_link_first_key (link : node) (max_page : Z) :
  scan_link link max_page
  = match Html.get link "href" with
    | Some href =>
        match PageKey.first href with
        | Some page =>
            if (String.length page <=? 4300)%nat
            then Ok (Z.max max_page (value page))
            else Raise ValueError
        | None => Ok max_page
        end
    | None => Ok max_page
    end.
Proof.
  rewrite scan_link_eq. unfold readable_link, link_signal.
  destruct (Html.get link "href") as [href|]; [| reflexivity].
  destruct (PageKey.first href) as [page|]; [| reflexivity].
  unfold within_limit, PyStr.max_str_digits.
  now destruct (String.length page <=? 4300)%nat.
Qed.

(** ** A generated URL as a link *)

Lemma page_key_first_pass (u rest : string) :
  PyStr.all (fun c => negb (Re.mem c "?&")) u = true ->
  PageKey.first (u ++ rest) = PageKey.first rest.
Proof.
  induction u as [|c u IH]; [reflexivity |].
  cbn [PyStr.all]. intros H. apply andb_true_iff in H as [Hc Hu].
  apply negb_true_iff in Hc.
  change (String c u ++ rest) with (String c (u ++ rest)).
  cbn [PageKey.first].
  replace (PageKey.at_start (String c (u ++ rest))) with (@None string).
  - now apply IH.
  - unfold PageKey.at_start.
    destruct (u ++ rest) as [|k [|e s]]; try reflexivity. now rewrite Hc.
Qed.

Lemma page_key_after_suffix (d : ascii) (digits : string) :
  PyStr.is_decimal d = true ->
  PageKey.first (URL_SUFFIX ++ "&p=" ++ String d digits)
  = Some (String d (Occurrence.take PyStr.is_decimal digits)).
Proof.
  intros Hd. cbn. now rewrite Hd.
Qed.

(** The first page key of the URL of a page is its page number. *)
Lemma page_key_of_page_url (app_id : string) (page : Z) :
  PyStr.isdigit app_id = true -> 0 <= page ->
  PageKey.first (build_base_url app_id ++ "&p=" ++ decimal page)
  = Some (decimal page).
Proof.
  intros Hid Hpage.
  rewrite build_base_url_eq, !append_assoc.
  rewrite page_key_first_pass by reflexivity.
  rewrite page_key_first_pass.
  2: { unfold PyStr.isdigit in Hid. apply andb_true_iff in Hid as [_ Hid].
       apply (all_impl PyStr.is_digit); [| exact Hid].
       intros c Hc. destruct (digit_character c Hc) as (_ & _ & _ & _ & -> & _).
       reflexivity. }
  pose proof (decimal_isdecimal page Hpage) as Hdecimal.
  unfold PyStr.isdecimal in Hdecimal.
  destruct (decimal page) as [|d digits]; [discriminate |].
  cbn [PyStr.nonempty PyStr.all andb] in Hdecimal.
  apply andb_true_iff in Hdecimal as [Hd Hdigits].
  now rewrite page_key_after_suffix, take_all.
Qed.

Lemma contains_append (needle before s : string) :
  PyStr.contains needle s = true -> PyStr.contains needle (before ++ s) = true.
Proof.
  intros H. induction before as [|c before IH]; [exact H |].
  change (String c before ++ s) with (String c (before ++ s)).
  cbn [PyStr.contains]. rewrite IH. apply orb_true_r.
Qed.

(** A page whose only content is a link with one page key announces the
    number of that key. *)
Lemma extract_max_page_single_link (url page : string) :
  PyStr.contains "&p=" url = true ->
  PageKey.first url = Some page ->
  within_limit page = true ->
  extract_max_page (document [page_link url]) = Ok (Z.max 1 (value page)).
Proof.
  intros Hcontains Hfirst Hlimit.
  assert (Hselect : Css.select page_link_selector (document [page_link url])
                    = [page_link url]).
  { unfold Css.select, document, page_link. cbn. now rewrite Hcontains. }
  assert (Hcontainers : containers_of (document [page_link url])
                        = [document [page_link url]]) by reflexivity.
  unfold extract_max_page. rewrite Hcontainers.
  cbn [for_each]. rewrite bind_ok, scan_container_eq.
  unfold readable_container, signals_in. rewrite Hselect.
  change (Css.select data_page_selector (document [page_link url]))
    with (@nil node).
  cbn [forallb flat_map app andb].
  unfold readable_link, link_signal.
  change (Html.get (page_link url) "href") with (Some url).
  cbv beta iota. rewrite Hfirst, Hlimit.
  change (readable_text (document [page_link url])) with true.
  change (text_signal (document [page_link url])) with (@nil Z).
  reflexivity.
Qed.

(** A page whose only content is a link to page [page] of the search of an
    identifier, with the URL that [build_page_url] returns for it, announces
    [page] pages: the expression of the link signal reads the page number
    back from the URLs the program builds. *)
Theorem extract_max_page_of_page_url (app_id : string) (page : Z)
    (url : string) :
  PyStr.isdigit app_id = true -> 0 <= page ->
  build_page_url app_id page = Ok url ->
  extract_max_page (document [page_link url]) = Ok (Z.max 1 page).
Proof.
  intros Hid Hpage Hurl.
  assert (Hsmall : Z.abs page < UNWRITABLE).
  { destruct (Z.le_gt_cases UNWRITABLE (Z.abs page)) as [E | E]; [| lia].
    rewrite build_page_url_eq, of_int_large in Hurl by exact E.
    discriminate Hurl. }
  rewrite build_page_url_small in Hurl by exact Hsmall.
  injection Hurl as <-.
  rewrite (extract_max_page_single_link _ (decimal page)).
  - now rewrite value_decimal.
  - apply contains_append. destruct (decimal page); reflexivity.
  - now apply page_key_of_page_url.
  - apply decimal_within_limit. lia.
Qed.

Lemma extract_max_page_of_page_url_witness :
  extract_max_page
    (document
       [page_link
          ("https://steamcommunity.com/app/730/discussions/search/?" ++
           "gidforum=1638661595058265180&include_deleted=1&q=+&p=12")])
  = Ok 12.
Proof.
  apply (extract_max_page_of_page_url "730" 12);
    [reflexivity | lia | vm_compute; reflexivity].
Defined.
(** ** Ranges *)

Lemma range_length (lo hi : Z) :
  List.length (range lo hi) = Z.to_nat (hi - lo).
Proof. unfold range. now rewrite length_map, length_seq. Qed.

Lemma range_empty (lo hi : Z) : hi <= lo -> range lo hi = [].
Proof.
  intros H. unfold range.
  replace (Z.to_nat (hi - lo)) with 0%nat by lia. reflexivity.
Qed.

Lemma range_first (lo hi : Z) :
  lo < hi -> range lo hi = lo :: range (lo + 1) hi.
Proof.
  intros H. unfold range.
  replace (Z.to_nat (hi - lo)) with (S (Z.to_nat (hi - (lo + 1)))) by lia.
  simpl. f_equal; [lia |].
  rewrite <- seq_shift, map_map.
  apply map_ext. intros i. lia.
Qed.

Lemma range_bounds (lo hi page : Z) : In page (range lo hi) -> lo <= page < hi.
Proof.
  unfold range. rewrite in_map_iff. intros (i & <- & Hi).
  apply in_seq in Hi. lia.
Qed.

(** ** Delays *)

(** A delay greater than 0 is true for [if delay:]. *)
Lemma positive_truthy (delay : PrimFloat.float) :
  PrimFloat.ltb PrimFloat.zero delay = true -> truthy delay = true.
Proof.
  unfold truthy. rewrite FloatAxioms.ltb_spec, FloatAxioms.eqb_spec.
  change (Prim2SF PrimFloat.zero) with (SpecFloat.S754_zero false).
  destruct (Prim2SF delay) as [s | s | | s m e]; cbn;
    try discriminate; try reflexivity.
  - now destruct s.
  - now destruct s.
Qed.

Lemma suspension_zero : suspension PrimFloat.zero = [].
Proof. reflexivity. Qed.

(** ** Traces *)

Lemma prepend_nil (t : trace) : prepend [] t = t.
Proof. now destruct t. Qed.

Lemma prepend_prepend (evs evs' : list event) (t : trace) :
  prepend evs (prepend evs' t) = prepend (evs ++ evs') t.
Proof. unfold prepend. cbn [fst snd]. now rewrite app_assoc. Qed.

Lemma followed_by_returns (evs : list event) (k : trace) :
  followed_by (evs, None) k = prepend evs k.
Proof. reflexivity. Qed.

Lemma yields_prepend (evs : list event) (t : trace) :
  yields (prepend evs t) = (yields (evs, None) ++ yields t)%list.
Proof. unfold yields, prepend. simpl. apply flat_map_app. Qed.

Lemma yields_app (evs evs' : list event) (ending ending' ending'' : option exn) :
  yields ((evs ++ evs')%list, ending)
  = (yields (evs, ending') ++ yields (evs', ending''))%list.
Proof. unfold yields. cbn [fst]. apply flat_map_app. Qed.

Lemma yields_ending (evs : list event) (ending : option exn) :
  yields (evs, ending) = yields (evs, None).
Proof. reflexivity. Qed.

Lemma sleeps_prepend (evs : list event) (t : trace) :
  sleeps (prepend evs t) = (sleeps (evs, None) + sleeps t)%nat.
Proof.
  unfold sleeps, prepend. simpl. now rewrite filter_app, length_app.
Qed.

Lemma yields_cons_log (url : string) (evs : list event) :
  yields (Log_error url :: evs, None) = yields (evs, None).
Proof. reflexivity. Qed.

Lemma yields_suspension (delay : PrimFloat.float) :
  yields (suspension delay, None) = [].
Proof. unfold suspension. now destruct (truthy delay). Qed.

(** ** The records of an identifier *)

Lemma url_record_first (app_id : string) :
  url_record app_id 1 = Ok (app_id, build_base_url app_id).
Proof. unfold url_record. rewrite Z.eqb_refl. reflexivity. Qed.

Lemma url_record_later (app_id : string) (page : Z) :
  2 <= page < UNWRITABLE ->
  url_record app_id page
  = Ok (app_id, build_base_url app_id ++ "&p=" ++ decimal page).
Proof.
  intros H. unfold url_record.
  destruct (page =? 1) eqn:E; [lia |].
  rewrite build_page_url_small by lia. reflexivity.
Qed.

Lemma yield_pages_within (app_id : string) (pages : list Z) :
  Forall (fun page => 2 <= page < UNWRITABLE) pages ->
  yield_pages app_id pages
  = (flat_map (fun page =>
                 match url_record app_id page with
                 | Ok (app_id', url) => [Yield app_id' url]
                 | Raise _ => []
                 end) pages, None).
Proof.
  induction 1 as [|page pages Hpage _ IH]; [reflexivity |].
  cbn [yield_pages flat_map].
  rewrite url_record_later, build_page_url_small, IH by lia.
  reflexivity.
Qed.

Lemma range_within (n : Z) :
  n < UNWRITABLE ->
  Forall (fun page => 2 <= page < UNWRITABLE) (range 2 (n + 1)).
Proof.
  intros Hn. apply Forall_forall. intros page Hin.
  apply range_bounds in Hin. lia.
Qed.

Lemma records_of_first (app_id : string) (n : Z) :
  1 <= n ->
  records_of app_id n
  = Yield app_id (build_base_url app_id)
    :: flat_map (fun page =>
                   match url_record app_id page with
                   | Ok (app_id', url) => [Yield app_id' url]
                   | Raise _ => []
                   end) (range 2 (n + 1)).
Proof.
  intros Hn. unfold records_of. rewrite (range_first 1) by lia.
  cbn [flat_map]. now rewrite url_record_first.
Qed.

(** The events of the records are yields only. *)
Lemma records_of_filter (keep : event -> bool) (app_id : string) (n : Z) :
  (forall a u, keep (Yield a u) = true) ->
  filter keep (records_of app_id n) = records_of app_id n.
Proof.
  intros Hkeep. unfold records_of.
  induction (range 1 (n + 1)) as [|page pages IH]; [reflexivity |].
  cbn [flat_map]. rewrite filter_app, IH. f_equal.
  destruct (url_record app_id page) as [[a u]|]; [| reflexivity].
  cbn [filter]. now rewrite Hkeep.
Qed.

Lemma records_of_none (keep : event -> bool) (app_id : string) (n : Z) :
  (forall a u, keep (Yield a u) = false) ->
  filter keep (records_of app_id n) = [].
Proof.
  intros Hkeep. unfold records_of.
  induction (range 1 (n + 1)) as [|page pages IH]; [reflexivity |].
  cbn [flat_map]. rewrite filter_app, IH, app_nil_r.
  destruct (url_record app_id page) as [[a u]|]; [| reflexivity].
  cbn [filter]. now rewrite Hkeep.
Qed.

Lemma sleeps_records (app_id : string) (n : Z) (evs : list event) :
  sleeps ((records_of app_id n ++ evs)%list, None) = sleeps (evs, None).
Proof.
  unfold sleeps. cbn [fst]. rewrite filter_app, records_of_none; reflexivity.
Qed.

(** The pairs of the records of an identifier are its pages from 1 to
    [max_page]. *)
Lemma yields_records (app_id : string) (n : Z) :
  1 <= n < UNWRITABLE ->
  map Ok (yields (records_of app_id n, None))
  = map (url_record app_id) (range 1 (n + 1)).
Proof.
  intros Hn. unfold records_of, yields. cbn [fst].
  assert (H : Forall (fun page => 1 <= page < UNWRITABLE) (range 1 (n + 1))).
  { apply Forall_forall. intros page Hin. apply range_bounds in Hin. lia. }
  induction H as [|page pages Hpage _ IH]; [reflexivity |].
  cbn [flat_map map]. rewrite flat_map_app, map_app, IH. clear IH.
  destruct (Z.eq_dec page 1) as [-> | Hne].
  - now rewrite url_record_first.
  - now rewrite url_record_later by lia.
Qed.

Lemma yields_records_length (app_id : string) (n : Z) :
  1 <= n < UNWRITABLE ->
  Z.of_nat (List.length (yields (records_of app_id n, None))) = n.
Proof.
  intros Hn.
  rewrite <- (length_map Ok), yields_records, length_map, range_length by exact Hn.
  lia.
Qed.

Lemma pages_count (app_ids : list string) (ns : list Z) :
  Forall (fun n => 1 <= n) ns ->
  (List.length ns <= List.length app_ids)%nat ->
  Z.of_nat
    (List.length
       (flat_map (fun '(app_id, n) => map (url_record app_id) (range 1 (n + 1)))
          (combine app_ids ns)))
  = sum ns.
Proof.
  intros Hfloor. revert app_ids.
  induction Hfloor as [|n ns Hn _ IH]; intros app_ids Hlen.
  - now destruct app_ids.
  - destruct app_ids as [|app_id app_ids]; cbn [List.length] in Hlen; [lia |].
    cbn [combine flat_map]. rewrite length_app, length_map, range_length.
    rewrite Nat2Z.inj_add, IH by lia.
    change (sum (n :: ns)) with (n + sum ns). lia.
Qed.

(** ** UrlEnumerator *)

Section Enumerator.

Variable Session : Type.
Variable Timeout : Type.
Variable session_get : Session -> string -> Timeout -> Session * result response.
Variable time_sleep : PrimFloat.float -> result unit.

Abbreviation fetch_max_page := (fetch_max_page Session Timeout session_get).
Abbreviation pause := (pause time_sleep).
Abbreviation emit := (emit time_sleep).
Abbreviation generate_urls :=
  (generate_urls Session Timeout session_get time_sleep).
Abbreviation fetched_max_pages := (fetched_max_pages Session Timeout session_get).
Abbreviation pause_returns := (pause_returns time_sleep).
Abbreviation used_max_pages :=
  (used_max_pages Session Timeout session_get time_sleep).
Abbreviation session_after :=
  (session_after Session Timeout session_get time_sleep).
Abbreviation main := (main Session Timeout session_get time_sleep).

Lemma pause_returns_pause (delay : PrimFloat.float) :
  pause_returns delay = true -> pause delay = (suspension delay, None).
Proof.
  unfold pause_returns, pause, suspension.
  destruct (truthy delay); cbn [negb orb]; [| reflexivity].
  destruct (time_sleep delay) as [[]|]; [reflexivity | discriminate].
Qed.

Lemma pause_raises (delay : PrimFloat.float) (e : exn) :
  truthy delay = true -> time_sleep delay = Raise e ->
  pause delay = ([], Some e).
Proof. unfold pause. now intros -> ->. Qed.

Lemma pause_not_returns (delay : PrimFloat.float) :
  pause_returns delay = false ->
  exists e, truthy delay = true /\ time_sleep delay = Raise e.
Proof.
  unfold pause_returns.
  destruct (truthy delay); cbn [negb orb]; [| discriminate].
  destruct (time_sleep delay) as [|e]; [discriminate |]. now exists e.
Qed.

(** One iteration, for a max-page that [str] writes: the records, then the
    pause. *)
Lemma emit_records (app_id : string) (n : Z) (delay : PrimFloat.float) :
  1 <= n < UNWRITABLE ->
  emit app_id n delay = prepend (records_of app_id n) (pause delay).
Proof.
  intros Hn. unfold emit.
  rewrite yield_pages_within by (apply range_within; lia).
  rewrite followed_by_returns, prepend_prepend, records_of_first by lia.
  reflexivity.
Qed.

Lemma generate_urls_cons (app_id : string) (app_ids : list string)
    (session : Session) (timeout : Timeout) (delay : PrimFloat.float) :
  generate_urls (app_id :: app_ids) session timeout delay
  = let '(session', fetched) := fetch_max_page session app_id timeout in
    match fetched with
    | Ok max_page =>
        followed_by (emit app_id max_page delay)
          (generate_urls app_ids session' timeout delay)
    | Raise UrlGenerationError =>
        followed_by
          (prepend [Log_error (build_base_url app_id)] (emit app_id 1 delay))
          (generate_urls app_ids session' timeout delay)
    | Raise e => ([], Some e)
    end.
Proof. reflexivity. Qed.

(** A successful fetch returns the extracted max-page. *)
Lemma fetch_max_page_success (session session' : Session) (app_id : string)
    (timeout : Timeout) (r : response) (n : Z) :
  session_get session (build_base_url app_id) timeout = (session', Ok r) ->
  raise_for_status r = Ok tt ->
  extract_max_page (parsed r) = Ok n ->
  fetch_max_page session app_id timeout = (session', Ok n).
Proof.
  intros Hget Hstatus Hextract. unfold fetch_max_page.
  rewrite Hget. cbn [bind]. rewrite Hstatus. cbn [bind]. rewrite Hextract.
  cbn [bind].
  apply extract_max_page_floor in Hextract.
  now rewrite Z.max_l by lia.
Qed.

(** A failed fetch is turned into [UrlGenerationError]. *)
Lemma fetch_max_page_failure (session session' : Session) (app_id : string)
    (timeout : Timeout) (got : result response) :
  session_get session (build_base_url app_id) timeout = (session', got) ->
  fetch_fails got = true ->
  fetch_max_page session app_id timeout = (session', Raise UrlGenerationError).
Proof.
  intros Hget Hfails. unfold fetch_max_page. rewrite Hget.
  destruct got as [r|e]; cbn [bind fetch_fails] in *.
  - unfold raise_for_status. now rewrite Hfails.
  - now destruct e.
Qed.

Lemma fetch_max_page_cases (session : Session) (app_id : string)
    (timeout : Timeout) :
  fetch_max_page session app_id timeout
  = (fst (session_get session (build_base_url app_id) timeout),
     match snd (session_get session (build_base_url app_id) timeout) with
     | Raise RequestException => Raise UrlGenerationError
     | Raise e => Raise e
     | Ok r =>
         if fetch_fails (Ok r) then Raise UrlGenerationError
         else extract_max_page (parsed r)
     end).
Proof.
  unfold fetch_max_page.
  destruct (session_get session (build_base_url app_id) timeout) as [session' got].
  cbn [fst snd].
  destruct got as [r|e]; cbn [bind fetch_fails]; [| now destruct e].
  unfold raise_for_status.
  destruct ((400 <=? status_code r) && (status_code r <? 600)); [reflexivity |].
  cbn [bind].
  destruct (extract_max_page (parsed r)) as [n|e] eqn:Hextract; [| reflexivity].
  cbn [bind]. apply extract_max_page_floor in Hextract.
  now rewrite Z.max_l by lia.
Qed.

(** The max-page that a fetch returns is at least 1, and an integer that
    [str] writes. *)
Lemma fetch_max_page_within (session session' : Session) (app_id : string)
    (timeout : Timeout) (n : Z) :
  fetch_max_page session app_id timeout = (session', Ok n) ->
  1 <= n < UNWRITABLE.
Proof.
  rewrite fetch_max_page_cases. intros H.
  apply (f_equal snd) in H. cbn [snd] in H.
  destruct (snd (session_get session (build_base_url app_id) timeout))
    as [r|e].
  - destruct (fetch_fails (Ok r)); [discriminate |].
    now apply extract_max_page_within in H.
  - now destruct e.
Qed.

Lemma one_within : 1 <= 1 < UNWRITABLE.
Proof. pose proof unwritable_positive. lia. Qed.

(** An iteration whose pause returns. *)
Lemma generate_urls_step (app_id : string) (app_ids : list string)
    (session : Session) (timeout : Timeout) (delay : PrimFloat.float) :
  pause_returns delay = true ->
  generate_urls (app_id :: app_ids) session timeout delay
  = let '(session', fetched) := fetch_max_page session app_id timeout in
    match fetched with
    | Ok max_page =>
        prepend (records_of app_id max_page ++ suspension delay)
          (generate_urls app_ids session' timeout delay)
    | Raise UrlGenerationError =>
        prepend
          (Log_error (build_base_url app_id)
           :: records_of app_id 1 ++ suspension delay)
          (generate_urls app_ids session' timeout delay)
    | Raise e => ([], Some e)
    end.
Proof.
  intros Hpause. rewrite generate_urls_cons.
  destruct (fetch_max_page session app_id timeout) as [session' fetched] eqn:Hf.
  destruct fetched as [n|e].
  - apply fetch_max_page_within in Hf.
    rewrite emit_records, pause_returns_pause by assumption.
    reflexivity.
  - destruct e; try reflexivity.
    rewrite emit_records, pause_returns_pause by (assumption || apply one_within).
    reflexivity.
Qed.

(** An iteration whose pause raises. *)
Lemma generate_urls_last_step (app_id : string) (app_ids : list string)
    (session : Session) (timeout : Timeout) (delay : PrimFloat.float)
    (e : exn) :
  truthy delay = true -> time_sleep delay = Raise e ->
  generate_urls (app_id :: app_ids) session timeout delay
  = match snd (fetch_max_page session app_id timeout) with
    | Ok max_page => (records_of app_id max_page, Some e)
    | Raise UrlGenerationError =>
        (Log_error (build_base_url app_id) :: records_of app_id 1, Some e)
    | Raise e' => ([], Some e')
    end.
Proof.
  intros Htruthy Hsleep. rewrite generate_urls_cons.
  destruct (fetch_max_page session app_id timeout) as [session' fetched] eqn:Hf.
  cbn [snd].
  destruct fetched as [n|e'].
  - apply fetch_max_page_within in Hf.
    rewrite emit_records, (pause_raises delay e) by assumption.
    unfold followed_by, prepend. cbn [fst snd]. now rewrite app_nil_r.
  - destruct e'; try reflexivity.
    rewrite emit_records, (pause_raises delay e)
      by (assumption || apply one_within).
    unfold followed_by, prepend. cbn [fst snd]. now rewrite app_nil_r.
Qed.

Lemma used_max_pages_cons (app_id : string) (app_ids : list string)
    (session : Session) (timeout : Timeout) (delay : PrimFloat.float) :
  used_max_pages (app_id :: app_ids) session timeout delay
  = let '(session', fetched) := fetch_max_page session app_id timeout in
    let later :=
      if pause_returns delay
      then used_max_pages app_ids session' timeout delay
      else [] in
    match fetched with
    | Ok max_page => max_page :: later
    | Raise UrlGenerationError => 1 :: later
    | Raise _ => []
    end.
Proof. reflexivity. Qed.

Lemma session_after_cons (app_id : string) (app_ids : list string)
    (session : Session) (timeout : Timeout) (delay : PrimFloat.float) :
  session_after (app_id :: app_ids) session timeout delay
  = let '(session', fetched) := fetch_max_page session app_id timeout in
    match fetched with
    | Ok _ | Raise UrlGenerationError =>
        if pause_returns delay
        then session_after app_ids session' timeout delay
        else session'
    | Raise _ => session'
    end.
Proof. reflexivity. Qed.

Lemma records_of_one (app_id : string) :
  records_of app_id 1 = [Yield app_id (build_base_url app_id)].
Proof. now rewrite records_of_first, range_empty by lia. Qed.

Lemma yields_iteration (app_id : string) (n : Z) (delay : PrimFloat.float)
    (t : trace) :
  yields (prepend (records_of app_id n ++ suspension delay) t)
  = (yields (records_of app_id n, None) ++ yields t)%list.
Proof.
  rewrite yields_prepend, (yields_app _ _ None None None), yields_suspension.
  now rewrite app_nil_r.
Qed.

Lemma yields_log_iteration (url app_id : string) (n : Z)
    (delay : PrimFloat.float) (t : trace) :
  yields (prepend (Log_error url :: records_of app_id n ++ suspension delay) t)
  = (yields (records_of app_id n, None) ++ yields t)%list.
Proof.
  rewrite yields_prepend, yields_cons_log.
  rewrite (yields_app _ _ None None None), yields_suspension.
  now rewrite app_nil_r.
Qed.

(** C2, as amended: when every fetch of a run succeeds, with max-pages
    [ns], and the pause of an iteration returns (the delay is a zero, or
    [time.sleep] returns for it), the run ends without an exception; its
    records are, identifier after identifier in the order of the input, the
    pages 1 to N of that identifier in ascending order, page 1 as the base
    URL and the others through [build_page_url]; and their number is the
    sum of the max-pages. *)
Theorem generate_urls_all_pages (app_ids : list string) (session : Session)
    (timeout : Timeout) (delay : PrimFloat.float) (ns : list Z) :
  fetched_max_pages app_ids session timeout = Some ns ->
  pause_returns delay = true ->
  snd (generate_urls app_ids session timeout delay) = None
  /\ map Ok (yields (generate_urls app_ids session timeout delay))
     = flat_map (fun '(app_id, n) => map (url_record app_id) (range 1 (n + 1)))
         (combine app_ids ns)
  /\ List.length ns = List.length app_ids
  /\ Z.of_nat (List.length (yields (generate_urls app_ids session timeout delay)))
     = sum ns.
Proof.
  intros H Hpause. revert session ns H.
  induction app_ids as [|app_id app_ids IH]; intros session ns H.
  - injection H as <-. repeat split.
  - simpl in H.
    destruct (session_get session (build_base_url app_id) timeout)
      as [session' got] eqn:Hget.
    destruct got as [r|e]; [| discriminate].
    destruct (raise_for_status r) as [[]|] eqn:Hstatus; [| discriminate].
    destruct (extract_max_page (parsed r)) as [n|] eqn:Hextract; [| discriminate].
    destruct (fetched_max_pages app_ids session' timeout) as [ns'|] eqn:Hrest;
      [| discriminate].
    injection H as <-.
    destruct (IH session' ns' Hrest) as (Hend & Hrows & Hlen & Hcount).
    pose proof (extract_max_page_within _ _ Hextract) as Hwithin.
    rewrite generate_urls_step by exact Hpause.
    rewrite (fetch_max_page_success _ _ _ _ _ _ Hget Hstatus Hextract).
    rewrite yields_iteration.
    split; [exact Hend |]. split; [| split].
    + rewrite map_app, yields_records, Hrows by exact Hwithin. reflexivity.
    + cbn [List.length]. now rewrite Hlen.
    + rewrite length_app, Nat2Z.inj_add, yields_records_length, Hcount
        by exact Hwithin.
      reflexivity.
Qed.

(** C5, as amended: when the request for an identifier raises a
    [RequestException] or is answered with a status from 400 to 599, the run
    logs the failure and yields one record for that identifier, its base
    URL; the failure raises nothing.  When the pause that follows returns,
    the run goes on with the remaining identifiers as a run of its own
    would; when [time.sleep] raises, the run ends there with that
    exception. *)
Theorem generate_urls_fetch_failure (app_id : string) (app_ids : list string)
    (session session' : Session) (timeout : Timeout)
    (delay : PrimFloat.float) (got : result response) :
  session_get session (build_base_url app_id) timeout = (session', got) ->
  fetch_fails got = true ->
  (pause_returns delay = true ->
   generate_urls (app_id :: app_ids) session timeout delay
   = prepend
       (Log_error (build_base_url app_id)
        :: Yield app_id (build_base_url app_id)
        :: suspension delay)
       (generate_urls app_ids session' timeout delay)
   /\ yields (generate_urls (app_id :: app_ids) session timeout delay)
      = (app_id, build_base_url app_id)
        :: yields (generate_urls app_ids session' timeout delay))
  /\ (forall e,
        truthy delay = true -> time_sleep delay = Raise e ->
        generate_urls (app_id :: app_ids) session timeout delay
        = ([Log_error (build_base_url app_id);
            Yield app_id (build_base_url app_id)], Some e)).
Proof.
  intros Hget Hfails.
  pose proof (fetch_max_page_failure _ _ _ _ _ Hget Hfails) as Hfetch.
  split.
  - intros Hpause.
    assert (Hrun : generate_urls (app_id :: app_ids) session timeout delay
                   = prepend
                       (Log_error (build_base_url app_id)
                        :: Yield app_id (build_base_url app_id)
                        :: suspension delay)
                       (generate_urls app_ids session' timeout delay)).
    { rewrite generate_urls_step, Hfetch, records_of_one by exact Hpause.
      reflexivity. }
    split; [exact Hrun |].
    rewrite Hrun, yields_prepend.
    change (yields (Log_error ?u :: Yield ?a ?b :: ?l, None))
      with ((a, b) :: yields (l, None)).
    now rewrite yields_suspension.
  - intros e Htruthy Hsleep.
    rewrite (generate_urls_last_step _ _ _ _ _ e), Hfetch by assumption.
    cbn [snd]. now rewrite records_of_one.
Qed.

(** C4, as amended: with a delay greater than 0, a run that ends without
    an exception suspends once per identifier, after the records of that
    identifier and before those of the next one, the last identifier
    included: the logged errors apart, the events of the run are, identifier
    after identifier, its records followed by one suspension, so that n
    identifiers give n suspensions. *)
Theorem generate_urls_sleeps_after_each (app_ids : list string)
    (session : Session) (timeout : Timeout) (delay : PrimFloat.float) :
  PrimFloat.ltb PrimFloat.zero delay = true ->
  snd (generate_urls app_ids session timeout delay) = None ->
  filter not_log (fst (generate_urls app_ids session timeout delay))
  = flat_map (fun '(app_id, n) => records_of app_id n ++ [Sleep delay])%list
      (combine app_ids (used_max_pages app_ids session timeout delay))
  /\ List.length (used_max_pages app_ids session timeout delay)
     = List.length app_ids
  /\ sleeps (generate_urls app_ids session timeout delay)
     = List.length app_ids.
Proof.
  intros Hdelay. apply positive_truthy in Hdelay.
  revert session.
  induction app_ids as [|app_id app_ids IH]; intros session Hend.
  - now repeat split.
  - destruct (time_sleep delay) as [[]|e] eqn:Hsleep.
    + assert (Hpause : pause_returns delay = true)
        by (unfold pause_returns; rewrite Hsleep; apply orb_true_r).
      assert (Hsuspension : suspension delay = [Sleep delay])
        by (unfold suspension; now rewrite Hdelay).
      rewrite generate_urls_step in * by exact Hpause.
      rewrite used_max_pages_cons, Hpause, Hsuspension in *.
      destruct (fetch_max_page session app_id timeout) as [session' fetched].
      destruct fetched as [n|e]; [| destruct e; try discriminate Hend];
        unfold prepend in Hend; cbn [snd] in Hend;
        destruct (IH session' Hend) as (Hevents & Hlength & Hsleeps);
        cbv zeta; cbn [combine flat_map List.length];
        (split; [| split; [now rewrite Hlength |]]).
      * unfold prepend. cbn [fst].
        rewrite !filter_app, records_of_filter, Hevents by reflexivity.
        reflexivity.
      * rewrite sleeps_prepend, sleeps_records, Hsleeps. reflexivity.
      * unfold prepend. cbn [fst app filter not_log].
        rewrite !filter_app, records_of_filter, Hevents by reflexivity.
        reflexivity.
      * rewrite sleeps_prepend, Hsleeps.
        change (sleeps (Log_error ?u :: ?l, None)) with (sleeps (l, None)).
        now rewrite sleeps_records.
    + rewrite (generate_urls_last_step _ _ _ _ _ e) in Hend by assumption.
      destruct (snd (fetch_max_page session app_id timeout)) as [n|[]];
        discriminate Hend.
Qed.

(** What [fetch_max_page] does: one request, for the base URL of the
    identifier; a [RequestException], raised by the request or for a status
    from 400 to 599, becomes [UrlGenerationError] and never leaves the
    function; any other exception of the request goes through; and the
    page of a successful request gives what [extract_max_page] gives, the
    last [max] with 1 changing nothing. *)
Theorem fetch_max_page_outcomes (session : Session) (app_id : string)
    (timeout : Timeout) :
  let answer := session_get session (build_base_url app_id) timeout in
  fst (fetch_max_page session app_id timeout) = fst answer
  /\ snd (fetch_max_page session app_id timeout) <> Raise RequestException
  /\ snd (fetch_max_page session app_id timeout)
     = match snd answer with
       | Raise RequestException => Raise UrlGenerationError
       | Raise e => Raise e
       | Ok r =>
           if (400 <=? status_code r) && (status_code r <? 600)
           then Raise UrlGenerationError
           else extract_max_page (parsed r)
       end.
Proof.
  intros answer. subst answer.
  rewrite fetch_max_page_cases. cbn [fst snd].
  destruct (snd (session_get session (build_base_url app_id) timeout))
    as [r|e]; cbn [fetch_fails].
  - split; [reflexivity |]. split; [| reflexivity].
    destruct ((400 <=? status_code r) && (status_code r <? 600));
      [discriminate |].
    rewrite extract_max_page_cases.
    now destruct (well_formed (parsed r)).
  - repeat split; now destruct e.
Qed.

Lemma used_max_pages_within (app_ids : list string) (session : Session)
    (timeout : Timeout) (delay : PrimFloat.float) :
  Forall (fun n => 1 <= n < UNWRITABLE)
    (used_max_pages app_ids session timeout delay).
Proof.
  revert session.
  induction app_ids as [|app_id app_ids IH]; intros session; [constructor |].
  rewrite used_max_pages_cons.
  destruct (fetch_max_page session app_id timeout) as [session' fetched] eqn:Hf.
  cbv zeta.
  assert (Hlater : Forall (fun n => 1 <= n < UNWRITABLE)
                     (if pause_returns delay
                      then used_max_pages app_ids session' timeout delay
                      else []))
    by (destruct (pause_returns delay); [apply IH | constructor]).
  destruct fetched as [n|[]]; try constructor; try exact Hlater.
  - now apply fetch_max_page_within in Hf.
  - apply one_within.
Qed.

Lemma used_max_pages_length (app_ids : list string) (session : Session)
    (timeout : Timeout) (delay : PrimFloat.float) :
  (List.length (used_max_pages app_ids session timeout delay)
   <= List.length app_ids)%nat.
Proof.
  revert session.
  induction app_ids as [|app_id app_ids IH]; intros session; [reflexivity |].
  rewrite used_max_pages_cons.
  destruct (fetch_max_page session app_id timeout) as [session' fetched].
  cbv zeta. specialize (IH session').
  destruct fetched as [n|[]], (pause_returns delay); cbn [List.length]; lia.
Qed.

Lemma generate_urls_yields (app_ids : list string) (session : Session)
    (timeout : Timeout) (delay : PrimFloat.float) :
  map Ok (yields (generate_urls app_ids session timeout delay))
  = flat_map (fun '(app_id, n) => map (url_record app_id) (range 1 (n + 1)))
      (combine app_ids (used_max_pages app_ids session timeout delay))
  /\ (snd (generate_urls app_ids session timeout delay) = None
      <-> app_ids = []
          \/ (pause_returns delay = true
              /\ List.length (used_max_pages app_ids session timeout delay)
                 = List.length app_ids)).
Proof.
  revert session.
  induction app_ids as [|app_id app_ids IH]; intros session.
  - split; [reflexivity |]. split; [now left | reflexivity].
  - destruct (pause_returns delay) eqn:Hpause.
    + rewrite generate_urls_step, used_max_pages_cons by exact Hpause.
      rewrite Hpause.
      destruct (fetch_max_page session app_id timeout)
        as [session' fetched] eqn:Hf.
      destruct (IH session') as [Hrows Hend]. cbv zeta.
      assert (Hiff : snd (generate_urls app_ids session' timeout delay) = None
                     <-> List.length
                           (used_max_pages app_ids session' timeout delay)
                         = List.length app_ids).
      { rewrite Hend. split.
        - intros [-> | [_ H]]; [reflexivity | exact H].
        - intros H. right. now split. }
      destruct fetched as [n|e]; [| destruct e];
        try (split; [reflexivity |];
             split; [discriminate | intros [H | [_ H]]; discriminate H]).
      * apply fetch_max_page_within in Hf.
        rewrite yields_iteration, map_app, yields_records, Hrows by exact Hf.
        split; [reflexivity |].
        unfold prepend. cbn [snd List.length]. rewrite Hiff.
        split; [intros ->; right; now split |].
        intros [H | [_ H]]; [discriminate H | now injection H].
      * rewrite yields_log_iteration, map_app, yields_records, Hrows
          by apply one_within.
        split; [reflexivity |].
        unfold prepend. cbn [snd List.length]. rewrite Hiff.
        split; [intros ->; right; now split |].
        intros [H | [_ H]]; [discriminate H | now injection H].
    + destruct (pause_not_returns delay Hpause) as (e & Htruthy & Hsleep).
      rewrite (generate_urls_last_step _ _ _ _ _ e), used_max_pages_cons
        by assumption.
      rewrite Hpause.
      destruct (fetch_max_page session app_id timeout)
        as [session' fetched] eqn:Hf.
      cbv zeta. cbn [snd].
      destruct fetched as [n|e']; [| destruct e'];
        try (split; [reflexivity |];
             split; [discriminate | intros [H | [H _]]; discriminate H]).
      * apply fetch_max_page_within in Hf.
        rewrite yields_ending, yields_records by exact Hf.
        cbn [combine flat_map]. rewrite combine_nil. cbn [flat_map].
        rewrite app_nil_r.
        split; [reflexivity |].
        split; [discriminate | intros [H | [H _]]; discriminate H].
      * rewrite yields_ending, yields_cons_log, yields_records
          by apply one_within.
        cbn [combine flat_map]. rewrite combine_nil. cbn [flat_map].
        rewrite app_nil_r.
        split; [reflexivity |].
        split; [discriminate | intros [H | [H _]]; discriminate H].
Qed.

Lemma generate_urls_count (app_ids : list string) (session : Session)
    (timeout : Timeout) (delay : PrimFloat.float) :
  Z.of_nat (List.length (yields (generate_urls app_ids session timeout delay)))
  = sum (used_max_pages app_ids session timeout delay).
Proof.
  rewrite <- (length_map Ok).
  destruct (generate_urls_yields app_ids session timeout delay) as [-> _].
  apply pages_count; [| apply used_max_pages_length].
  eapply Forall_impl; [| apply used_max_pages_within].
  cbv beta. intros n Hn. lia.
Qed.

(** The records of every run, whether its fetches succeed or fail and
    whether or not an exception ends it: identifier after identifier, as far
    as the run gets, the pages from 1 to the max-page the generator works
    with, which is 1 after a failed fetch; the run ends without an
    exception exactly when it gets to every identifier and the pause of an
    iteration returns; the number of the records is the sum of these
    max-pages. *)
Theorem generate_urls_records (app_ids : list string) (session : Session)
    (timeout : Timeout) (delay : PrimFloat.float) :
  map Ok (yields (generate_urls app_ids session timeout delay))
  = flat_map (fun '(app_id, n) => map (url_record app_id) (range 1 (n + 1)))
      (combine app_ids (used_max_pages app_ids session timeout delay))
  /\ (snd (generate_urls app_ids session timeout delay) = None
      <-> app_ids = []
          \/ (pause_returns delay = true
              /\ List.length (used_max_pages app_ids session timeout delay)
                 = List.length app_ids))
  /\ Z.of_nat (List.length (yields (generate_urls app_ids session timeout delay)))
     = sum (used_max_pages app_ids session timeout delay).
Proof.
  destruct (generate_urls_yields app_ids session timeout delay) as [Hrows Hend].
  split; [exact Hrows |]. split; [exact Hend | apply generate_urls_count].
Qed.

(** When the pause of an iteration returns, the delay changes nothing but
    the suspensions: without them, the events of a run are those of the run
    with no delay, which has no suspension, and both runs end the same
    way. *)
Theorem generate_urls_delay (app_ids : list string) (session : Session)
    (timeout : Timeout) (delay : PrimFloat.float) :
  pause_returns delay = true ->
  filter not_sleep (fst (generate_urls app_ids session timeout delay))
  = fst (generate_urls app_ids session timeout PrimFloat.zero)
  /\ snd (generate_urls app_ids session timeout delay)
     = snd (generate_urls app_ids session timeout PrimFloat.zero)
  /\ sleeps (generate_urls app_ids session timeout PrimFloat.zero) = 0%nat.
Proof.
  intros Hpause.
  assert (Hzero : pause_returns PrimFloat.zero = true) by reflexivity.
  assert (Hsuspension : filter not_sleep (suspension delay) = [])
    by (unfold suspension; now destruct (truthy delay)).
  revert session.
  induction app_ids as [|app_id app_ids IH]; intros session.
  - now repeat split.
  - rewrite !generate_urls_step by assumption.
    destruct (fetch_max_page session app_id timeout) as [session' fetched].
    destruct (IH session') as (Hevents & Hend & Hsleeps).
    rewrite suspension_zero.
    destruct fetched as [n|[]]; try (now repeat split).
    + split; [| split].
      * unfold prepend. cbn [fst].
        rewrite !filter_app, records_of_filter, Hsuspension, Hevents
          by reflexivity.
        now rewrite app_nil_r.
      * exact Hend.
      * now rewrite sleeps_prepend, sleeps_records, Hsleeps.
    + split; [| split].
      * unfold prepend. cbn [fst app filter not_sleep].
        rewrite !filter_app, records_of_filter, Hsuspension, Hevents
          by reflexivity.
        now rewrite app_nil_r.
      * exact Hend.
      * rewrite sleeps_prepend, Hsleeps.
        change (sleeps (Log_error ?u :: ?l, None)) with (sleeps (l, None)).
        now rewrite sleeps_records.
Qed.

(** When [time.sleep] raises for the delay, a negative one for instance,
    the run ends with the first identifier: after its records, with the
    exception of [time.sleep], unless its fetch already ended the run; the
    identifiers that follow are neither requested nor yielded. *)
Theorem generate_urls_sleep_raises (app_id : string) (app_ids : list string)
    (session : Session) (timeout : Timeout) (delay : PrimFloat.float)
    (e : exn) :
  truthy delay = true -> time_sleep delay = Raise e ->
  generate_urls (app_id :: app_ids) session timeout delay
  = generate_urls [app_id] session timeout delay
  /\ snd (generate_urls (app_id :: app_ids) session timeout delay) <> None
  /\ (forall max_page,
        snd (fetch_max_page session app_id timeout) = Ok max_page ->
        generate_urls (app_id :: app_ids) session timeout delay
        = (records_of app_id max_page, Some e))
  /\ (snd (fetch_max_page session app_id timeout) = Raise UrlGenerationError ->
      generate_urls (app_id :: app_ids) session timeout delay
      = ([Log_error (build_base_url app_id);
          Yield app_id (build_base_url app_id)], Some e)).
Proof.
  intros Htruthy Hsleep.
  rewrite !(generate_urls_last_step _ _ _ _ _ e) by assumption.
  split; [reflexivity |]. split; [| split].
  - now destruct (snd (fetch_max_page session app_id timeout)) as [n|[]].
  - now intros max_page ->.
  - intros ->. now rewrite records_of_one.
Qed.

(** A run over two lists of identifiers, one after the other, is the run
    over the first list followed, when that run ends without an exception,
    by the run over the second list with the session as the first run left
    it. *)
Theorem generate_urls_app (app_ids app_ids' : list string) (session : Session)
    (timeout : Timeout) (delay : PrimFloat.float) :
  snd (generate_urls app_ids session timeout delay) = None ->
  generate_urls (app_ids ++ app_ids') session timeout delay
  = prepend (fst (generate_urls app_ids session timeout delay))
      (generate_urls app_ids' (session_after app_ids session timeout delay)
         timeout delay).
Proof.
  revert session.
  induction app_ids as [|app_id app_ids IH]; intros session Hend.
  - cbn [app]. now rewrite prepend_nil.
  - change ((app_id :: app_ids) ++ app_ids')%list
      with (app_id :: (app_ids ++ app_ids'))%list.
    destruct (pause_returns delay) eqn:Hpause.
    + rewrite !generate_urls_step, session_after_cons in * by exact Hpause.
      rewrite Hpause.
      destruct (fetch_max_page session app_id timeout) as [session' fetched].
      destruct fetched as [n|[]]; try discriminate Hend;
        unfold prepend in Hend; cbn [snd] in Hend;
        rewrite (IH session' Hend), prepend_prepend; reflexivity.
    + destruct (pause_not_returns delay Hpause) as (e & Htruthy & Hsleep).
      rewrite (generate_urls_last_step _ _ _ _ _ e) in Hend by assumption.
      destruct (snd (fetch_max_page session app_id timeout)) as [n|[]];
        discriminate Hend.
Qed.

(** An exception that ends a run ends it for good: the identifiers that
    follow the one at which it is raised are neither requested nor
    yielded. *)
Theorem generate_urls_exception_ends (app_ids app_ids' : list string)
    (session : Session) (timeout : Timeout) (delay : PrimFloat.float)
    (e : exn) :
  snd (generate_urls app_ids session timeout delay) = Some e ->
  generate_urls (app_ids ++ app_ids') session timeout delay
  = generate_urls app_ids session timeout delay
  /\ session_after (app_ids ++ app_ids') session timeout delay
     = session_after app_ids session timeout delay.
Proof.
  revert session.
  induction app_ids as [|app_id app_ids IH]; intros session Hend;
    [discriminate |].
  change ((app_id :: app_ids) ++ app_ids')%list
    with (app_id :: (app_ids ++ app_ids'))%list.
  destruct (pause_returns delay) eqn:Hpause.
  - rewrite !generate_urls_step, !session_after_cons in * by exact Hpause.
    rewrite Hpause.
    destruct (fetch_max_page session app_id timeout) as [session' fetched].
    destruct fetched as [n|[]]; try (now split);
      unfold prepend in Hend; cbn [snd] in Hend;
      destruct (IH session' Hend) as [-> ->]; now split.
  - destruct (pause_not_returns delay Hpause) as (e' & Htruthy & Hsleep).
    rewrite !(generate_urls_last_step _ _ _ _ _ e'), !session_after_cons
      by assumption.
    rewrite Hpause. now split.
Qed.

End Enumerator.

(** ** Runs on canned answers *)

(** C2, the counterexample: two identifiers whose fetches succeed, with 5
    and 1 pages, and a delay of minus one second, for which [time.sleep]
    raises [ValueError]: the run ends after the records of the first
    identifier, the second one has no record, and the number of the records
    is not the sum of the max-pages. *)
Lemma negative_delay_ends_run :
  let get := canned_get [ok_page page_five_links; ok_page (document [])] in
  let run := generate_urls nat unit get (canned_sleep (Raise ValueError))
               ["42"; "7"] 0%nat tt MINUS_ONE_SECOND in
  fetched_max_pages nat unit get ["42"; "7"] 0%nat tt = Some [5; 1]
  /\ snd run = Some ValueError
  /\ map fst (yields run) = ["42"; "42"; "42"; "42"; "42"]
  /\ Z.of_nat (List.length (yields run)) <> sum [5; 1].
Proof.
  split; [| split; [| split]]; vm_compute; try reflexivity; discriminate.
Qed.

(** C2 as amended, on a run of three identifiers, the first one repeated,
    whose pages announce 5, 1 and 7 pages, with a delay of two seconds. *)
Lemma generate_urls_all_pages_witness :
  let answers := [ok_page page_five_links; ok_page (document []);
                  ok_page page_mixed] in
  let run := generate_urls nat unit (canned_get answers) (canned_sleep (Ok tt))
               ["42"; "7"; "42"] 0%nat tt TWO_SECONDS in
  snd run = None
  /\ map Ok (yields run)
     = flat_map (fun '(app_id, n) => map (url_record app_id) (range 1 (n + 1)))
         (combine ["42"; "7"; "42"] [5; 1; 7])
  /\ List.length [5; 1; 7] = List.length ["42"; "7"; "42"]
  /\ Z.of_nat (List.length (yields run)) = sum [5; 1; 7].
Proof.
  apply (generate_urls_all_pages nat unit
           (canned_get [ok_page page_five_links; ok_page (document []);
                        ok_page page_mixed])
           (canned_sleep (Ok tt))
           ["42"; "7"; "42"] 0%nat tt TWO_SECONDS [5; 1; 7]);
    vm_compute; reflexivity.
Defined.

(** C5, the counterexample: a request answered with status 300, which is no
    success, and a page that announces 5 pages.  The fetch does not count as
    failed: no error is logged and the identifier has five records, not the
    one of its base URL. *)
Lemma status_300_is_scanned :
  let run := generate_urls nat unit
               (canned_get [multiple_choices page_five_links])
               (canned_sleep (Ok tt)) ["7"] 0%nat tt PrimFloat.zero in
  multiple_choices page_five_links
  = Ok {| status_code := 300; parsed := page_five_links |}
  /\ run = (records_of "7" 5, None)
  /\ List.length (yields run) = 5%nat
  /\ yields run <> [("7", build_base_url "7")].
Proof.
  split; [| split; [| split]]; vm_compute; try reflexivity; discriminate.
Qed.

(** C5 as amended, on a run whose first request is answered by status
    404. *)
Lemma generate_urls_fetch_failure_witness :
  let get := canned_get [not_found; ok_page page_five_links] in
  let run := generate_urls nat unit get in
  (pause_returns (canned_sleep (Ok tt)) TWO_SECONDS = true ->
   run (canned_sleep (Ok tt)) ["7"; "42"] 0%nat tt TWO_SECONDS
   = prepend
       (Log_error (build_base_url "7") :: Yield "7" (build_base_url "7")
        :: suspension TWO_SECONDS)
       (run (canned_sleep (Ok tt)) ["42"] 1%nat tt TWO_SECONDS)
   /\ yields (run (canned_sleep (Ok tt)) ["7"; "42"] 0%nat tt TWO_SECONDS)
      = ("7", build_base_url "7")
        :: yields (run (canned_sleep (Ok tt)) ["42"] 1%nat tt TWO_SECONDS))
  /\ (forall e,
        truthy TWO_SECONDS = true -> canned_sleep (Ok tt) TWO_SECONDS = Raise e ->
        run (canned_sleep (Ok tt)) ["7"; "42"] 0%nat tt TWO_SECONDS
        = ([Log_error (build_base_url "7"); Yield "7" (build_base_url "7")],
           Some e)).
Proof.
  apply (generate_urls_fetch_failure nat unit
           (canned_get [not_found; ok_page page_five_links])
           (canned_sleep (Ok tt))
           "7" ["42"] 0%nat 1%nat tt TWO_SECONDS not_found);
    vm_compute; reflexivity.
Defined.

(** C4, the counterexample: a run over one identifier with a delay of two
    seconds suspends once, not zero times, and the suspension comes after
    the records of that only, hence last, identifier. *)
Lemma one_identifier_sleeps_once :
  let run := generate_urls nat unit (canned_get [ok_page (document [])])
               (canned_sleep (Ok tt)) ["42"] 0%nat tt TWO_SECONDS in
  PrimFloat.ltb PrimFloat.zero TWO_SECONDS = true
  /\ sleeps run <> (List.length ["42"] - 1)%nat
  /\ run = ([Yield "42" (build_base_url "42"); Sleep TWO_SECONDS], None).
Proof.
  split; [| split]; vm_compute; try reflexivity; discriminate.
Qed.

(** C4 as amended, on a run over two identifiers, the second of which
    cannot be fetched. *)
Lemma generate_urls_sleeps_after_each_witness :
  let run := generate_urls nat unit
               (canned_get [ok_page page_five_links; not_found])
               (canned_sleep (Ok tt)) ["42"; "7"] 0%nat tt TWO_SECONDS in
  let used := used_max_pages nat unit
                (canned_get [ok_page page_five_links; not_found])
                (canned_sleep (Ok tt)) ["42"; "7"] 0%nat tt TWO_SECONDS in
  filter not_log (fst run)
  = flat_map (fun '(app_id, n) => records_of app_id n ++ [Sleep TWO_SECONDS])%list
      (combine ["42"; "7"] used)
  /\ List.length used = List.length ["42"; "7"]
  /\ sleeps run = List.length ["42"; "7"].
Proof.
  apply (generate_urls_sleeps_after_each nat unit
           (canned_get [ok_page page_five_links; not_found])
           (canned_sleep (Ok tt)) ["42"; "7"] 0%nat tt TWO_SECONDS);
    vm_compute; reflexivity.
Defined.

(** A run with a delay of two seconds, against the run with no delay. *)
Lemma generate_urls_delay_witness :
  let run := generate_urls nat unit
               (canned_get [ok_page page_five_links; not_found])
               (canned_sleep (Ok tt)) ["42"; "7"] 0%nat tt in
  filter not_sleep (fst (run TWO_SECONDS)) = fst (run PrimFloat.zero)
  /\ snd (run TWO_SECONDS) = snd (run PrimFloat.zero)
  /\ sleeps (run PrimFloat.zero) = 0%nat.
Proof.
  apply (generate_urls_delay nat unit
           (canned_get [ok_page page_five_links; not_found])
           (canned_sleep (Ok tt)) ["42"; "7"] 0%nat tt TWO_SECONDS).
  vm_compute. reflexivity.
Defined.

(** A run with a delay of minus one second, for which [time.sleep] raises
    [ValueError]. *)
Lemma generate_urls_sleep_raises_witness :
  let get := canned_get [ok_page page_five_links; not_found] in
  let run := generate_urls nat unit get (canned_sleep (Raise ValueError)) in
  run ["42"; "7"] 0%nat tt MINUS_ONE_SECOND
  = run ["42"] 0%nat tt MINUS_ONE_SECOND
  /\ snd (run ["42"; "7"] 0%nat tt MINUS_ONE_SECOND) <> None
  /\ (forall max_page,
        snd (fetch_max_page nat unit get 0%nat "42" tt) = Ok max_page ->
        run ["42"; "7"] 0%nat tt MINUS_ONE_SECOND
        = (records_of "42" max_page, Some ValueError))
  /\ (snd (fetch_max_page nat unit get 0%nat "42" tt) = Raise UrlGenerationError ->
      run ["42"; "7"] 0%nat tt MINUS_ONE_SECOND
      = ([Log_error (build_base_url "42"); Yield "42" (build_base_url "42")],
         Some ValueError)).
Proof.
  apply (generate_urls_sleep_raises nat unit
           (canned_get [ok_page page_five_links; not_found])
           (canned_sleep (Raise ValueError)) "42" ["7"] 0%nat tt
           MINUS_ONE_SECOND ValueError);
    vm_compute; reflexivity.
Defined.

(** A run over three identifiers, cut after the first one. *)
Lemma generate_urls_app_witness :
  let get := canned_get [ok_page page_five_links; not_found; ok_page page_mixed] in
  let run := generate_urls nat unit get (canned_sleep (Ok tt)) in
  run (["42"] ++ ["7"; "42"])%list 0%nat tt TWO_SECONDS
  = prepend (fst (run ["42"] 0%nat tt TWO_SECONDS))
      (run ["7"; "42"]
         (session_after nat unit get (canned_sleep (Ok tt)) ["42"] 0%nat tt
            TWO_SECONDS)
         tt TWO_SECONDS).
Proof.
  apply (generate_urls_app nat unit
           (canned_get [ok_page page_five_links; not_found; ok_page page_mixed])
           (canned_sleep (Ok tt))
           ["42"] ["7"; "42"] 0%nat tt TWO_SECONDS).
  vm_compute. reflexivity.
Defined.

(** A run whose second page holds [data-page="²"]: the third identifier is
    not reached. *)
Lemma generate_urls_exception_ends_witness :
  let get := canned_get [ok_page page_five_links; ok_page page_superscript;
                         ok_page page_mixed] in
  let sleep := canned_sleep (Ok tt) in
  generate_urls nat unit get sleep (["42"; "7"] ++ ["9"])%list 0%nat tt
    PrimFloat.zero
  = generate_urls nat unit get sleep ["42"; "7"] 0%nat tt PrimFloat.zero
  /\ session_after nat unit get sleep (["42"; "7"] ++ ["9"])%list 0%nat tt
       PrimFloat.zero
     = session_after nat unit get sleep ["42"; "7"] 0%nat tt PrimFloat.zero.
Proof.
  apply (generate_urls_exception_ends nat unit
           (canned_get [ok_page page_five_links; ok_page page_superscript;
                        ok_page page_mixed])
           (canned_sleep (Ok tt))
           ["42"; "7"] ["9"] 0%nat tt PrimFloat.zero ValueError).
  vm_compute. reflexivity.
Defined.

(** ** The command *)

Section Command.

Variable Session : Type.
Variable Timeout : Type.
Variable session_get : Session -> string -> Timeout -> Session * result response.
Variable time_sleep : PrimFloat.float -> result unit.

Abbreviation generate_urls :=
  (generate_urls Session Timeout session_get time_sleep).
Abbreviation used_max_pages :=
  (used_max_pages Session Timeout session_get time_sleep).
Abbreviation main := (main Session Timeout session_get time_sleep).

Lemma write_rows_return (fs : file_system) :
  (forall written row, write_row fs written row = Ok tt) ->
  forall written rows ending,
    write_rows fs written rows ending
    = (map (fun r => [fst r; snd r]) rows, ending).
Proof.
  intros Hwrite written rows ending. revert written.
  induction rows as [|[app_id url] rows IH]; intros written; [reflexivity |].
  cbn [write_rows map fst snd]. now rewrite Hwrite, IH.
Qed.

(** [write_csv] on a file that can be opened, written and closed. *)
Lemma write_csv_returns (fs : file_system) (rows : trace)
    (output_path : string) :
  open_write fs output_path = Ok tt -> writes_return fs ->
  write_csv fs rows output_path
  = (Some (["app_id"; "url"] :: map (fun r => [fst r; snd r]) (yields rows)),
     match snd rows with
     | Some e => Raise e
     | None => Ok tt
     end).
Proof.
  intros Hopen [Hwrite Hclose]. unfold write_csv.
  rewrite Hopen, Hwrite, write_rows_return, Hclose by exact Hwrite.
  reflexivity.
Qed.

Lemma write_csv_file (fs : file_system) (rows : trace) (output_path : string) :
  fst (write_csv fs rows output_path) = None
  <-> exists e, open_write fs output_path = Raise e.
Proof.
  unfold write_csv.
  destruct (open_write fs output_path) as [u|e].
  - destruct (write_row fs 0 ["app_id"; "url"]);
      [destruct (write_rows fs 1 (yields rows) (snd rows)) |];
      cbn [fst]; (split; [discriminate | intros [e' H]; discriminate H]).
  - cbn [fst]. split; [now exists e | reflexivity].
Qed.

(** What [main] does, case by case. *)
Lemma main_cases (fs : file_system) (session : Session)
    (args : arguments Timeout) :
  main fs session args
  = match path_exists fs (ids args) with
    | Raise e => (Raise e, None)
    | Ok false => (Ok 1, None)
    | Ok true =>
        match read_text fs (ids args) with
        | Raise e => (Raise e, None)
        | Ok text =>
            match read_app_ids text with
            | [] => (Ok 1, None)
            | _ :: _ =>
                let written :=
                  write_csv fs
                    (generate_urls (read_app_ids text) session (timeout args)
                       (delay args))
                    (output args) in
                (_ <- snd written ;; Ok 0, fst written)
            end
        end
    end.
Proof.
  unfold main.
  destruct (path_exists fs (ids args)) as [[]|]; try reflexivity.
  destruct (read_text fs (ids args)) as [text|]; try reflexivity.
  destruct (read_app_ids text) as [|app_id app_ids]; [reflexivity |].
  cbv zeta.
  now destruct (write_csv fs _ (output args)).
Qed.

(** The outcomes of [main].  No output file is created exactly when the
    identifier file is not found to exist, cannot be read, holds no
    identifier, or when the output file cannot be opened.  [main] returns 1
    when the identifier file does not exist or holds no identifier, and
    lets through the exception of the test of existence, of the reading or
    of the opening.  In every other run, as long as the rows are written
    and the file is closed without an exception, the output file holds its
    header row followed by one row of two fields per record of the
    generator, and [main] returns 0 when the generator ends without an
    exception and lets the exception through otherwise, the rows written
    before it staying in the file. *)
Theorem main_exit_codes (fs : file_system) (session : Session)
    (args : arguments Timeout) :
  (snd (main fs session args) = None
   <-> path_exists fs (ids args) <> Ok true
       \/ (exists e, read_text fs (ids args) = Raise e)
       \/ (exists text, read_text fs (ids args) = Ok text
                        /\ read_app_ids text = [])
       \/ (exists e, open_write fs (output args) = Raise e))
  /\ (path_exists fs (ids args) = Ok false ->
      main fs session args = (Ok 1, None))
  /\ (forall e,
        path_exists fs (ids args) = Raise e
        \/ (path_exists fs (ids args) = Ok true
            /\ read_text fs (ids args) = Raise e) ->
        main fs session args = (Raise e, None))
  /\ (forall text,
        path_exists fs (ids args) = Ok true ->
        read_text fs (ids args) = Ok text ->
        (read_app_ids text = [] -> main fs session args = (Ok 1, None))
        /\ (read_app_ids text <> [] ->
            (forall e,
               open_write fs (output args) = Raise e ->
               main fs session args = (Raise e, None))
            /\ (open_write fs (output args) = Ok tt -> writes_return fs ->
                let run := generate_urls (read_app_ids text) session
                             (timeout args) (delay args) in
                main fs session args
                = (match snd run with
                   | None => Ok 0
                   | Some e => Raise e
                   end,
                   Some (["app_id"; "url"]
                         :: map (fun r => [fst r; snd r]) (yields run)))))).
Proof.
  rewrite main_cases.
  split; [| split; [| split]].
  - destruct (path_exists fs (ids args)) as [[]|e0] eqn:Hexists; cbn [snd].
    + destruct (read_text fs (ids args)) as [text|e1] eqn:Hread; cbn [snd].
      * destruct (read_app_ids text) as [|app_id app_ids] eqn:Hids; cbn [snd].
        -- split; [intros _ | reflexivity].
           right. right. left. now exists text.
        -- cbv zeta. cbn [snd]. rewrite write_csv_file.
           split; [intros H; now repeat right |].
           intros [H | [[e H] | [(text' & H & Hnil) | H]]];
             [now elim H | discriminate H | | exact H].
           injection H as <-. now rewrite Hids in Hnil.
      * split; [intros _ | reflexivity].
        right. left. now exists e1.
    + split; [intros _; now left | reflexivity].
    + split; [intros _; now left | reflexivity].
  - now intros ->.
  - intros e [-> | [-> ->]]; reflexivity.
  - intros text -> ->. split; [now intros -> |].
    intros Hids.
    destruct (read_app_ids text) as [|app_id app_ids] eqn:Heq; [now elim Hids |].
    cbv zeta. split.
    + intros e Hopen. unfold write_csv. now rewrite Hopen.
    + intros Hopen Hwrites. rewrite write_csv_returns by assumption.
      cbn [fst snd].
      now destruct (snd (generate_urls (app_id :: app_ids) session
                           (timeout args) (delay args))).
Qed.

(** A run of [main] whose files can be read and written and whose generator
    ends without an exception writes, after the header row, as many rows as
    the sum of the max-pages of the identifiers of the file, a failed fetch
    counting for one, and returns 0. *)
Theorem main_row_count (fs : file_system) (session : Session)
    (args : arguments Timeout) (text : string) :
  path_exists fs (ids args) = Ok true ->
  read_text fs (ids args) = Ok text ->
  read_app_ids text <> [] ->
  open_write fs (output args) = Ok tt ->
  writes_return fs ->
  snd (generate_urls (read_app_ids text) session (timeout args) (delay args))
  = None ->
  exists file,
    main fs session args = (Ok 0, Some file)
    /\ Z.of_nat (List.length file)
       = 1 + sum (used_max_pages (read_app_ids text) session (timeout args)
                    (delay args))
    /\ List.length (used_max_pages (read_app_ids text) session (timeout args)
                      (delay args))
       = List.length (read_app_ids text).
Proof.
  intros Hexists Hread Hids Hopen Hwrites Hend.
  rewrite main_cases, Hexists, Hread.
  destruct (read_app_ids text) as [|app_id app_ids] eqn:Heq; [now elim Hids |].
  cbv zeta. rewrite write_csv_returns by assumption.
  cbn [fst snd]. rewrite Hend. cbn [bind].
  eexists. split; [reflexivity |].
  split.
  - cbn [List.length]. rewrite length_map, Nat2Z.inj_succ.
    rewrite (generate_urls_count Session Timeout session_get time_sleep). lia.
  - destruct (generate_urls_yields Session Timeout session_get time_sleep
                (app_id :: app_ids) session (timeout args) (delay args))
      as [_ Hiff].
    apply Hiff in Hend. destruct Hend as [H | [_ H]]; [discriminate H | exact H].
Qed.

End Command.

(** C8, at the failing input: the identifier file exists and holds one valid
    identifier, the request succeeds, and the page holds [data-page="²"].
    [main] returns no exit code: [ValueError] leaves it, so that the
    interpreter ends with status 1, and the output file was created, with
    its header only. *)
Theorem main_raises_on_superscript :
  let outcome := main nat unit (canned_get [ok_page page_superscript])
                   (canned_sleep (Ok tt))
                   (only_ids_file ("42" ++ LINE_FEED)) 0%nat sample_arguments in
  read_app_ids ("42" ++ LINE_FEED) = ["42"]
  /\ outcome = (Raise ValueError, Some [["app_id"; "url"]])
  /\ exit_status (fst outcome) = 1.
Proof. repeat split; vm_compute; reflexivity. Qed.

(** The three ordinary outcomes of [main]: a missing identifier file, a file
    without identifiers, and a run whose only request fails. *)
Lemma main_examples :
  main nat unit (canned_get []) (canned_sleep (Ok tt)) no_file 0%nat
    sample_arguments
  = (Ok 1, None)
  /\ main nat unit (canned_get []) (canned_sleep (Ok tt))
       (only_ids_file "# none") 0%nat sample_arguments
     = (Ok 1, None)
  /\ main nat unit (canned_get [not_found]) (canned_sleep (Ok tt))
       (only_ids_file "7") 0%nat sample_arguments
     = (Ok 0, Some [["app_id"; "url"]; ["7"; build_base_url "7"]]).
Proof. repeat split; vm_compute; reflexivity. Qed.

(** A run of [main] with a delay of minus one second, for which
    [time.sleep] raises [ValueError]: the exception leaves [main] after the
    rows of the first identifier. *)
Lemma main_negative_delay :
  main nat unit (canned_get [not_found; not_found])
    (canned_sleep (Raise ValueError))
    (only_ids_file (one_per_line ["7"; "9"])) 0%nat
    {| ids := "ids.txt"; output := "steam_discussion_urls.csv";
       timeout := tt; delay := MINUS_ONE_SECOND |}
  = (Raise ValueError, Some [["app_id"; "url"]; ["7"; build_base_url "7"]]).
Proof. vm_compute. reflexivity. Qed.

(** A run of [main] over two identifiers, the second of which cannot be
    fetched: five rows for the first one, one for the second. *)
Lemma main_row_count_witness :
  exists file,
    main nat unit (canned_get [ok_page page_five_links; not_found])
      (canned_sleep (Ok tt))
      (only_ids_file (one_per_line ["42"; "7"])) 0%nat sample_arguments
    = (Ok 0, Some file)
    /\ Z.of_nat (List.length file)
       = 1 + sum (used_max_pages nat unit
                    (canned_get [ok_page page_five_links; not_found])
                    (canned_sleep (Ok tt))
                    (read_app_ids (one_per_line ["42"; "7"])) 0%nat
                    (timeout sample_arguments) (delay sample_arguments))
    /\ List.length (used_max_pages nat unit
                      (canned_get [ok_page page_five_links; not_found])
                      (canned_sleep (Ok tt))
                      (read_app_ids (one_per_line ["42"; "7"])) 0%nat
                      (timeout sample_arguments) (delay sample_arguments))
       = List.length (read_app_ids (one_per_line ["42"; "7"])).
Proof.
  apply (main_row_count nat unit
           (canned_get [ok_page page_five_links; not_found])
           (canned_sleep (Ok tt))
           (only_ids_file (one_per_line ["42"; "7"])) 0%nat sample_arguments
           (one_per_line ["42"; "7"])).
  - reflexivity.
  - reflexivity.
  - vm_compute. discriminate.
  - reflexivity.
  - split; reflexivity.
  - vm_compute. reflexivity.
Defined.
